(** * io_uring fdinfo: the Snapshot Reporter and the Stall Diagnostic Dumper

    A shallow embedding of [io_uring/fdinfo.c].  The ring context is a
    record that the two entry points only read; the text they produce is
    a [string] that grows by appending; the unsigned cursors are integers
    of [Z] reduced modulo [2^32] wherever the C code can wrap. *)

From Stdlib Require Import ZArith List Bool Lia Ascii String.
From Stdlib Require DecimalString HexadecimalString.
Import ListNotations.
Open Scope string_scope.
Open Scope Z_scope.

Set Implicit Arguments.

(** ** Machine integers *)

Definition U32_MOD : Z := 2 ^ 32.

(** Value of an [unsigned int] expression after wrap-around. *)
Definition u32 (x : Z) : Z := x mod U32_MOD.

(** [min] of the kernel on two unsigned values. *)
Definition min (a b : Z) : Z := if a <? b then a else b.

(** [flags & MASK] used as a C truth value. *)
Definition has_flag (flags mask : Z) : bool := negb (Z.land flags mask =? 0).

(** ** Text and the [printf] conversions used by the file *)

Definition LF : string := String "010" "".
Definition TAB : string := String "009" "".

(** Conversion [%u] / [%llu]. *)
Definition fmt_u (x : Z) : string :=
  DecimalString.NilZero.string_of_uint (N.to_uint (Z.to_N x)).

(** Conversion [%d]. *)
Definition fmt_d (x : Z) : string :=
  DecimalString.NilZero.string_of_int (Z.to_int x).

(** Conversion [%x] / [%llx] (lower case digits). *)
Definition fmt_x (x : Z) : string :=
  HexadecimalString.NilZero.string_of_uint (N.to_hex_uint (Z.to_N x)).

Fixpoint spaces (n : nat) : string :=
  match n with
  | O => ""
  | S n' => String " " (spaces n')
  end.

(** Conversion [%5u]: right justified in a field of five columns. *)
Definition fmt_5u (x : Z) : string :=
  let s := fmt_u x in spaces (5 - String.length s) ++ s.

(** Number of newline characters of a text. *)
Fixpoint count_nl (s : string) : nat :=
  match s with
  | EmptyString => O
  | String c s' => ((if Ascii.eqb c "010" then 1 else 0) + count_nl s')%nat
  end.

(** The complete (newline terminated) lines of a text, and the
    unterminated remainder after the last newline. *)
Fixpoint split_lines (s : string) : list string * string :=
  match s with
  | EmptyString => ([], "")
  | String c s' =>
      let (ls, r) := split_lines s' in
      if Ascii.eqb c "010" then ("" :: ls, r)
      else match ls with
           | [] => ([], String c r)
           | l :: ls' => (String c l :: ls', r)
           end
  end.

(** ** The output sink of the reporter

    The sink is the text written so far.  It is taken to be unbounded: the
    buffer of a [seq_file] that fills up is enlarged and the show routine
    run again by its caller, outside this file. *)

Definition seq_file : Type := string.

Definition seq_printf (m : seq_file) (text : string) : seq_file := m ++ text.
Definition seq_puts (m : seq_file) (text : string) : seq_file := m ++ text.

(** A counted [for (i = start; ...; i++)] loop whose body cannot leave it. *)
Fixpoint for_upto (n : nat) (i : Z) (body : Z -> seq_file -> seq_file)
    (m : seq_file) : seq_file :=
  match n with
  | O => m
  | S n' => for_upto n' (i + 1) body (body i m)
  end.

(** ** Data model *)

(** One 64-byte submission slot.  The named fields are the ones the code
    reads through [struct io_uring_sqe]; [sqe_word j] is the [j]-th 64-bit
    word of the same slot, as read through the [u64 *] cast. *)
Record io_uring_sqe := {
  sqe_opcode : Z;
  sqe_flags : Z;
  sqe_fd : Z;
  sqe_off : Z;
  sqe_addr : Z;
  sqe_rw_flags : Z;
  sqe_buf_index : Z;
  sqe_user_data : Z;
  sqe_word : Z -> Z
}.

Record io_uring_cqe := {
  cqe_user_data : Z;
  cqe_res : Z;
  cqe_flags : Z;
  big_cqe0 : Z;
  big_cqe1 : Z
}.

(** Shared ring memory: the four cursors and the completion array. *)
Record io_rings := {
  sq_head : Z;
  sq_tail : Z;
  cq_head : Z;
  cq_tail : Z;
  cqes : Z -> io_uring_cqe
}.

Record task_struct := {
  pid : Z;
  task_works : list Z          (* callback_head chain: the [func] pointers *)
}.

Record io_uring_task := { task : task_struct }.

Record io_kiocb := {
  req_opcode : Z;
  req_flags : Z;
  req_cqe : io_uring_cqe;
  refs : Z;
  poll_refs : Z;
  tctx : option io_uring_task;
  work_cancel_seq : Z;
  cancel_seq_set : Z;
  io_task_work_func : Z
}.

Record io_defer_entry := { de_req : io_kiocb }.

Record io_overflow_cqe := { ocqe_cqe : io_uring_cqe }.

Record io_mapped_ubuf := { ubuf : Z; len : Z }.

(** A resource node of the registered-file table: [io_slot_file] of the
    node, [None] for a NULL file pointer. *)
Record io_file_node := { io_slot_file : option Z }.

(** A resource node of the registered-buffer table. *)
Record io_buf_node := { buf : option io_mapped_ubuf }.

Record io_file_data := {
  file_nr : Z;
  file_nodes : Z -> option io_file_node
}.

Record io_buf_data := {
  buf_nr : Z;
  buf_nodes : Z -> option io_buf_node
}.

Record io_hash_table := {
  hash_bits : Z;
  hbs : Z -> list io_kiocb
}.

Record io_sq_data := {
  thread : option task_struct;
  task_pid : Z;
  sq_cpu : Z;
  work_time : Z
}.

Record io_ring_ctx := {
  ctx_addr : Z;                 (* the value of the pointer [ctx] *)
  flags : Z;
  sq_entries : Z;
  cq_entries : Z;
  rings : option io_rings;
  cached_sq_head : Z;
  cached_cq_tail : Z;
  sq_array : Z -> Z;
  sq_sqes : Z -> io_uring_sqe;
  sq_data : option io_sq_data;
  file_table : io_file_data;
  buf_table : io_buf_data;
  cancel_table : io_hash_table;
  cq_overflow_list : list io_overflow_cqe;
  work_llist : list io_kiocb;
  retry_llist : list io_kiocb;
  fallback_llist : list io_kiocb;
  defer_list : list io_defer_entry;
  nr_req_allocated : Z;
  cancel_seq : Z;
  napi_track_mode : Z;
  napi_busy_poll_dt : Z;
  napi_prefer_busy_poll : bool
}.

(** What the file takes from headers and other translation units:
    constants of the user API, the opcode table, and helpers. *)
Record kernel_env := {
  IORING_OP_LAST : Z;
  is_128 : Z -> bool;                       (* io_issue_defs[op].is_128 *)
  io_uring_get_opcode : Z -> string;
  IORING_SETUP_SQPOLL : Z;
  IORING_SETUP_SQE128 : Z;
  IORING_SETUP_CQE32 : Z;
  IORING_SETUP_NO_SQARRAY : Z;
  IORING_SETUP_SQE_MIXED : Z;
  IORING_CQE_F_32 : Z;
  CONFIG_NET_RX_BUSY_POLL : bool;
  IO_URING_NAPI_TRACKING_INACTIVE : Z;
  IO_URING_NAPI_TRACKING_DYNAMIC : Z;
  IO_URING_NAPI_TRACKING_STATIC : Z;
  file_path : Z -> string;                  (* text written by seq_file_path *)
  io_sq_cpu_usec : task_struct -> Z;
  fmt_p : Z -> string;                      (* conversion %p *)
  fmt_ps : Z -> string                      (* conversion %ps *)
}.

(** ** Outcomes and the state of the locks *)

Inductive fault := NullDeref | LockdepAssert.

(** An invocation returns, stops at a fault, or is still running when the
    step budget of a loop is spent. *)
Inductive result (A : Type) :=
| Done (a : A)
| Fault (f : fault)
| OutOfFuel.

Arguments Done {A} a.
Arguments Fault {A} f.
Arguments OutOfFuel {A}.

Inductive sync_op :=
| TryLockUring (acquired : bool)
| UnlockUring
| LockCompletion
| UnlockCompletion
| RcuReadLock
| RcuReadUnlock.

(** What the entry points change besides their sink: the owner of
    [ctx->uring_lock], the synchronisation operations performed so far,
    and the kernel log. *)
Record sys := {
  uring_lock : option Z;
  sync : list sync_op;
  dmesg : string
}.

Definition M (A : Type) : Type := sys -> result (A * sys).

Definition ret {A} (a : A) : M A := fun s => Done (a, s).

Definition bind {A B} (c : M A) (k : A -> M B) : M B :=
  fun s => match c s with
           | Done (a, s') => k a s'
           | Fault f => Fault f
           | OutOfFuel => OutOfFuel
           end.

Definition lift {A} (r : result A) : M A :=
  fun s => match r with
           | Done a => Done (a, s)
           | Fault f => Fault f
           | OutOfFuel => OutOfFuel
           end.

Notation "x <- c ;; k" := (bind c (fun x => k))
  (at level 61, c at next level, right associativity).
Notation "c ;;; k" := (bind c (fun _ => k))
  (at level 61, right associativity).

Definition log_sync (op : sync_op) : M unit :=
  fun s => Done (tt, {| uring_lock := uring_lock s;
                        sync := (sync s ++ [op])%list;
                        dmesg := dmesg s |}).

(** [mutex_trylock(&ctx->uring_lock)] by task [me]: never waits. *)
Definition mutex_trylock (me : Z) : M bool :=
  fun s => match uring_lock s with
           | None => Done (true, {| uring_lock := Some me;
                                    sync := (sync s ++ [TryLockUring true])%list;
                                    dmesg := dmesg s |})
           | Some _ => Done (false, {| uring_lock := uring_lock s;
                                       sync := (sync s ++ [TryLockUring false])%list;
                                       dmesg := dmesg s |})
           end.

Definition mutex_unlock : M unit :=
  fun s => Done (tt, {| uring_lock := None;
                        sync := (sync s ++ [UnlockUring])%list;
                        dmesg := dmesg s |}).

Definition spin_lock : M unit := log_sync LockCompletion.
Definition spin_unlock : M unit := log_sync UnlockCompletion.
Definition rcu_read_lock : M unit := log_sync RcuReadLock.
Definition rcu_read_unlock : M unit := log_sync RcuReadUnlock.

(** Modelled from the spec: [lockdep_assert_held], a macro of the lock
    validator that is not part of this file.  The routine "asserts" that the
    caller holds the lock, and a violation is a "fatal assertion". *)
Definition lockdep_assert_held (me : Z) : M unit :=
  fun s => match uring_lock s with
           | Some owner => if owner =? me then Done (tt, s) else Fault LockdepAssert
           | None => Fault LockdepAssert
           end.

Definition pr_warn (text : string) : M unit :=
  fun s => Done (tt, {| uring_lock := uring_lock s;
                        sync := sync s;
                        dmesg := dmesg s ++ text |}).

(** Dereference of a pointer that may be NULL. *)
Definition deref {A} (p : option A) : result A :=
  match p with
  | Some a => Done a
  | None => Fault NullDeref
  end.

(** [array_index_nospec(index, size)]: the index when it is in range. *)
Definition array_index_nospec (index size : Z) : Z :=
  if index <? size then index else 0.

(** [task_work_pending(task)] as printed by [%d]. *)
Definition task_work_pending (t : task_struct) : bool :=
  match task_works t with
  | [] => false
  | _ :: _ => true
  end.

Definition bool_to_int (b : bool) : Z := if b then 1 else 0.

Section Fdinfo.

Variable K : kernel_env.

(** *** NAPI block *)

Definition common_tracking_show_fdinfo (ctx : io_ring_ctx) (m : seq_file)
    (tracking_strategy : string) : seq_file :=
  let m := seq_puts m ("NAPI:" ++ TAB ++ "enabled" ++ LF) in
  let m := seq_printf m ("napi tracking:" ++ TAB ++ tracking_strategy ++ LF) in
  let m := seq_printf m ("napi_busy_poll_dt:" ++ TAB
                         ++ fmt_u (napi_busy_poll_dt ctx) ++ LF) in
  if napi_prefer_busy_poll ctx
  then seq_puts m ("napi_prefer_busy_poll:" ++ TAB ++ "true" ++ LF)
  else seq_puts m ("napi_prefer_busy_poll:" ++ TAB ++ "false" ++ LF).

Definition napi_show_fdinfo (ctx : io_ring_ctx) (m : seq_file) : seq_file :=
  if CONFIG_NET_RX_BUSY_POLL K then
    let mode := napi_track_mode ctx in
    if mode =? IO_URING_NAPI_TRACKING_INACTIVE K then
      seq_puts m ("NAPI:" ++ TAB ++ "disabled" ++ LF)
    else if mode =? IO_URING_NAPI_TRACKING_DYNAMIC K then
      common_tracking_show_fdinfo ctx m "dynamic"
    else if mode =? IO_URING_NAPI_TRACKING_STATIC K then
      common_tracking_show_fdinfo ctx m "static"
    else
      seq_printf m ("NAPI:" ++ TAB ++ "unknown mode (" ++ fmt_u mode ++ ")" ++ LF)
  else m.

(** *** Submission queue scan (source lines 93-150) *)

(** How one iteration of the [for] loop ends: falls through to [i++]
    with the current [sq_head], or leaves the loop by [break]. *)
Inductive loop_ctl :=
| Next (sq_head : Z) (m : seq_file)
| Break (m : seq_file).

(** Number of 64-bit words of a slot: [sizeof(struct io_uring_sqe) / sizeof(u64)]. *)
Definition sqe_size_words : Z := 64 / 8.

(** The text of the main [seq_printf] of a submission entry. *)
Definition sqe_text (sq_idx opcode : Z) (sqe : io_uring_sqe) : string :=
  fmt_5u sq_idx ++ ": opcode:" ++ io_uring_get_opcode K opcode
  ++ ", fd:" ++ fmt_d (sqe_fd sqe)
  ++ ", flags:" ++ fmt_x (sqe_flags sqe)
  ++ ", off:" ++ fmt_u (sqe_off sqe)
  ++ ", addr:0x" ++ fmt_x (sqe_addr sqe)
  ++ ", rw_flags:0x" ++ fmt_x (sqe_rw_flags sqe)
  ++ ", buf_index:" ++ fmt_d (sqe_buf_index sqe)
  ++ " user_data:" ++ fmt_u (sqe_user_data sqe).

(** The inner [for (j = 0; j < size; j++)] loop over the second half [sqeb]
    of a 128-byte entry. *)
Definition show_sqe_words (sqeb : io_uring_sqe) (m : seq_file) : seq_file :=
  for_upto (Z.to_nat sqe_size_words) 0
    (fun j m => seq_printf m (", e" ++ fmt_d j ++ ":0x" ++ fmt_x (sqe_word sqeb j))) m.

Definition invalid_sqe_text (sq_idx : Z) : string :=
  fmt_5u sq_idx ++ ": invalid sqe, 128B entry on non-mixed sq" ++ LF.

Definition corrupted_sqe_text (sq_idx : Z) : string :=
  fmt_5u sq_idx ++ ": corrupted sqe, wrapping 128B entry" ++ LF.

(** The resolved ring index of iteration [i]. *)
Definition sq_index (ctx : io_ring_ctx) (sq_mask i sq_head : Z) : Z :=
  let entry := u32 (i + sq_head) in
  if has_flag (flags ctx) (IORING_SETUP_NO_SQARRAY K)
  then Z.land entry sq_mask
  else sq_array ctx (Z.land entry sq_mask).

(** Lines 131-149: the entry line, its extra words, the newline. *)
Definition show_sqe (ctx : io_ring_ctx) (slot sq_idx opcode : Z) (sqe128 : bool)
    (m : seq_file) : seq_file :=
  let sqe := sq_sqes ctx slot in
  let m := seq_printf m (sqe_text sq_idx opcode sqe) in
  let m := if sqe128 then show_sqe_words (sq_sqes ctx (slot + 1)) m else m in
  seq_printf m LF.

(** The body of the loop of line 95, for the counter [i] and the current
    value of the local [sq_head]. *)
Definition sq_body (ctx : io_ring_ctx) (sq_mask sq_shift i sq_head : Z)
    (m : seq_file) : loop_ctl :=
  let sq_idx := sq_index ctx sq_mask i sq_head in
  if sq_mask <? sq_idx then Next sq_head m
  else
    let slot := u32 (Z.shiftl sq_idx sq_shift) in
    let opcode := sqe_opcode (sq_sqes ctx slot) in
    if IORING_OP_LAST K <=? opcode then Next sq_head m
    else
      let opcode := array_index_nospec opcode (IORING_OP_LAST K) in
      if negb (sq_shift =? 0) then
        Next sq_head (show_sqe ctx slot sq_idx opcode true m)
      else if is_128 K opcode then
        if negb (has_flag (flags ctx) (IORING_SETUP_SQE_MIXED K)) then
          Break (seq_printf m (invalid_sqe_text sq_idx))
        else
          let sq_head := u32 (sq_head + 1) in
          if Z.land sq_head sq_mask =? 0 then
            Break (seq_printf m (corrupted_sqe_text sq_idx))
          else
            Next sq_head (show_sqe ctx slot sq_idx opcode true m)
      else
        Next sq_head (show_sqe ctx slot sq_idx opcode false m).

(** [n] further iterations of the loop, starting at counter [i]. *)
Fixpoint sq_loop (ctx : io_ring_ctx) (sq_mask sq_shift : Z) (n : nat)
    (i sq_head : Z) (m : seq_file) : seq_file :=
  match n with
  | O => m
  | S n' =>
      match sq_body ctx sq_mask sq_shift i sq_head m with
      | Next sq_head' m' => sq_loop ctx sq_mask sq_shift n' (i + 1) sq_head' m'
      | Break m' => m'
      end
  end.

Definition sq_mask_of (ctx : io_ring_ctx) : Z := u32 (sq_entries ctx - 1).
Definition cq_mask_of (ctx : io_ring_ctx) : Z := u32 (cq_entries ctx - 1).

Definition sq_shift_of (ctx : io_ring_ctx) : Z :=
  if has_flag (flags ctx) (IORING_SETUP_SQE128 K) then 1 else 0.

(** Number of iterations of the loop: line 94. *)
Definition sq_scan_count (ctx : io_ring_ctx) (r : io_rings) : Z :=
  min (u32 (sq_tail r - sq_head r)) (sq_entries ctx).

(** Lines 93-150: the [SQEs:] line and the per-entry lines. *)
Definition show_sq_section (ctx : io_ring_ctx) (r : io_rings) (m : seq_file)
    : seq_file :=
  let m := seq_printf m ("SQEs:" ++ TAB ++ fmt_u (u32 (sq_tail r - sq_head r)) ++ LF) in
  sq_loop ctx (sq_mask_of ctx) (sq_shift_of ctx)
          (Z.to_nat (sq_scan_count ctx r)) 0 (sq_head r) m.

(** *** Completion queue scan (source lines 151-169) *)

(** [cqe32] of line 157. *)
Definition is_cqe32 (ctx : io_ring_ctx) (cqe : io_uring_cqe) : bool :=
  has_flag (cqe_flags cqe) (IORING_CQE_F_32 K)
  || has_flag (flags ctx) (IORING_SETUP_CQE32 K).

Definition cqe_text (idx : Z) (cqe : io_uring_cqe) : string :=
  fmt_5u idx ++ ": user_data:" ++ fmt_u (cqe_user_data cqe)
  ++ ", res:" ++ fmt_d (cqe_res cqe)
  ++ ", flags:" ++ fmt_x (cqe_flags cqe).

Definition cqe_extra_text (cqe : io_uring_cqe) : string :=
  ", extra1:" ++ fmt_u (big_cqe0 cqe) ++ ", extra2:" ++ fmt_u (big_cqe1 cqe).

(** The body of the [while] loop: the new sink and the new [cq_head]. *)
Definition cq_body (ctx : io_ring_ctx) (r : io_rings) (cq_mask cq_head : Z)
    (m : seq_file) : seq_file * Z :=
  let cqe := cqes r (Z.land cq_head cq_mask) in
  let cqe32 := is_cqe32 ctx cqe in
  let m := seq_printf m (cqe_text (Z.land cq_head cq_mask) cqe) in
  let m := if cqe32 then seq_printf m (cqe_extra_text cqe ++ LF) else m in
  let m := seq_printf m LF in
  let cq_head := u32 (cq_head + 1) in
  let cq_head := if cqe32 then u32 (cq_head + 1) else cq_head in
  (m, cq_head).

(** [while (cq_head < cq_tail)], with a budget of iterations. *)
Fixpoint cq_loop (ctx : io_ring_ctx) (r : io_rings) (cq_mask cq_tail : Z)
    (fuel : nat) (cq_head : Z) (m : seq_file) : result seq_file :=
  if cq_head <? cq_tail then
    match fuel with
    | O => OutOfFuel
    | S fuel' =>
        let (m', cq_head') := cq_body ctx r cq_mask cq_head m in
        cq_loop ctx r cq_mask cq_tail fuel' cq_head' m'
    end
  else Done m.

(** Lines 151-169: the [CQEs:] line and the per-entry lines. *)
Definition show_cq_section (ctx : io_ring_ctx) (r : io_rings) (fuel : nat)
    (m : seq_file) : result seq_file :=
  let m := seq_printf m ("CQEs:" ++ TAB ++ fmt_u (u32 (cq_tail r - cq_head r)) ++ LF) in
  cq_loop ctx r (cq_mask_of ctx) (cq_tail r) fuel (cq_head r) m.

(** The iterations of the scan as data: the cursor at which each one
    starts and whether it took the entry for a 32-byte one.  [None] when
    the scan is still running after [fuel] iterations. *)
Fixpoint cq_visits (ctx : io_ring_ctx) (r : io_rings) (cq_mask cq_tail : Z)
    (fuel : nat) (cq_head : Z) : option (list (Z * bool)) :=
  if cq_head <? cq_tail then
    match fuel with
    | O => None
    | S fuel' =>
        let cqe32 := is_cqe32 ctx (cqes r (Z.land cq_head cq_mask)) in
        match cq_visits ctx r cq_mask cq_tail fuel'
                (snd (cq_body ctx r cq_mask cq_head "")) with
        | Some vs => Some ((cq_head, cqe32) :: vs)
        | None => None
        end
    end
  else Some [].

(** Slots consumed by the visits: two for a 32-byte entry, one otherwise. *)
Definition slots_consumed (vs : list (Z * bool)) : Z :=
  fold_right (fun (v : Z * bool) acc => (if snd v then 2 else 1) + acc) 0 vs.

(** *** SQ poll thread (source lines 171-200) *)

Record sqpoll_status := {
  sq_pid : Z;
  sq_cpu_no : Z;
  sq_total_time : Z;
  sq_work_time : Z
}.

(** The reference taken on the task by [get_task_struct] is dropped by
    [put_task_struct] before the values are used; it leaves no trace. *)
Definition read_sqpoll (ctx : io_ring_ctx) : M sqpoll_status :=
  let none := {| sq_pid := -1; sq_cpu_no := -1;
                 sq_total_time := 0; sq_work_time := 0 |} in
  if has_flag (flags ctx) (IORING_SETUP_SQPOLL K) then
    rcu_read_lock ;;;
    sq <- lift (deref (sq_data ctx)) ;;
    match thread sq with
    | Some tsk =>
        rcu_read_unlock ;;;
        let usec := io_sq_cpu_usec K tsk in
        ret {| sq_pid := task_pid sq; sq_cpu_no := sq_cpu sq;
               sq_total_time := usec; sq_work_time := work_time sq |}
    | None =>
        rcu_read_unlock ;;;
        ret none
    end
  else ret none.

Definition show_sqpoll (st : sqpoll_status) (m : seq_file) : seq_file :=
  let m := seq_printf m ("SqThread:" ++ TAB ++ fmt_d (sq_pid st) ++ LF) in
  let m := seq_printf m ("SqThreadCpu:" ++ TAB ++ fmt_d (sq_cpu_no st) ++ LF) in
  let m := seq_printf m ("SqTotalTime:" ++ TAB ++ fmt_u (sq_total_time st) ++ LF) in
  seq_printf m ("SqWorkTime:" ++ TAB ++ fmt_u (sq_work_time st) ++ LF).

(** *** Registered files and buffers (source lines 201-223) *)

(** The file of slot [i]: line 203-206. *)
Definition file_of_slot (ctx : io_ring_ctx) (i : Z) : option Z :=
  match file_nodes (file_table ctx) i with
  | Some node => io_slot_file node
  | None => None
  end.

Definition user_file_body (ctx : io_ring_ctx) (i : Z) (m : seq_file) : seq_file :=
  match file_of_slot ctx i with
  | Some f =>
      let m := seq_printf m (fmt_5u i ++ ": ") in
      let m := seq_printf m (file_path K f) in
      seq_puts m LF
  | None => m
  end.

Definition show_user_files (ctx : io_ring_ctx) (m : seq_file) : seq_file :=
  let m := seq_printf m ("UserFiles:" ++ TAB ++ fmt_u (file_nr (file_table ctx)) ++ LF) in
  for_upto (Z.to_nat (file_nr (file_table ctx))) 0 (user_file_body ctx) m.

(** The buffer of slot [i]: line 215-218. *)
Definition buf_of_slot (ctx : io_ring_ctx) (i : Z) : option io_mapped_ubuf :=
  match buf_nodes (buf_table ctx) i with
  | Some node => buf node
  | None => None
  end.

Definition user_buf_text (ctx : io_ring_ctx) (i : Z) : string :=
  match buf_of_slot ctx i with
  | Some b => fmt_5u i ++ ": 0x" ++ fmt_x (ubuf b) ++ "/" ++ fmt_u (len b) ++ LF
  | None => fmt_5u i ++ ": <none>" ++ LF
  end.

Definition user_buf_body (ctx : io_ring_ctx) (i : Z) (m : seq_file) : seq_file :=
  seq_printf m (user_buf_text ctx i).

Definition show_user_bufs (ctx : io_ring_ctx) (m : seq_file) : seq_file :=
  let m := seq_printf m ("UserBufs:" ++ TAB ++ fmt_u (buf_nr (buf_table ctx)) ++ LF) in
  for_upto (Z.to_nat (buf_nr (buf_table ctx))) 0 (user_buf_body ctx) m.

(** *** Poll list and overflow list (source lines 225-244) *)

(** One chain of the hash table.  [req->tctx->task] is dereferenced
    without a check. *)
Fixpoint show_poll_bucket (reqs : list io_kiocb) (m : seq_file) : result seq_file :=
  match reqs with
  | [] => Done m
  | req :: rest =>
      match deref (tctx req) with
      | Done t =>
          show_poll_bucket rest
            (seq_printf m ("  op=" ++ fmt_d (req_opcode req) ++ ", task_works="
                           ++ fmt_d (bool_to_int (task_work_pending (task t))) ++ LF))
      | Fault f => Fault f
      | OutOfFuel => OutOfFuel
      end
  end.

Fixpoint show_poll_buckets (ctx : io_ring_ctx) (n : nat) (i : Z) (m : seq_file)
    : result seq_file :=
  match n with
  | O => Done m
  | S n' =>
      match show_poll_bucket (hbs (cancel_table ctx) i) m with
      | Done m' => show_poll_buckets ctx n' (i + 1) m'
      | Fault f => Fault f
      | OutOfFuel => OutOfFuel
      end
  end.

(** Number of buckets: [1U << ctx->cancel_table.hash_bits]. *)
Definition nr_buckets (ctx : io_ring_ctx) : Z :=
  u32 (Z.shiftl 1 (hash_bits (cancel_table ctx))).

Definition show_poll_list (ctx : io_ring_ctx) (m : seq_file) : result seq_file :=
  let m := seq_puts m ("PollList:" ++ LF) in
  show_poll_buckets ctx (Z.to_nat (nr_buckets ctx)) 0 m.

Definition overflow_text (ocqe : io_overflow_cqe) : string :=
  let cqe := ocqe_cqe ocqe in
  "  user_data=" ++ fmt_u (cqe_user_data cqe) ++ ", res=" ++ fmt_d (cqe_res cqe)
  ++ ", flags=" ++ fmt_x (cqe_flags cqe) ++ LF.

Definition show_overflow (ctx : io_ring_ctx) (m : seq_file) : M seq_file :=
  let m := seq_puts m ("CqOverflowList:" ++ LF) in
  spin_lock ;;;
  let m := fold_left (fun m ocqe => seq_printf m (overflow_text ocqe))
                     (cq_overflow_list ctx) m in
  spin_unlock ;;;
  ret m.

(** *** The reporter *)

(** Lines 85-92: masks and cursors. *)
Definition show_cursors (ctx : io_ring_ctx) (r : io_rings) (m : seq_file) : seq_file :=
  let m := seq_printf m ("SqMask:" ++ TAB ++ "0x" ++ fmt_x (sq_mask_of ctx) ++ LF) in
  let m := seq_printf m ("SqHead:" ++ TAB ++ fmt_u (sq_head r) ++ LF) in
  let m := seq_printf m ("SqTail:" ++ TAB ++ fmt_u (sq_tail r) ++ LF) in
  let m := seq_printf m ("CachedSqHead:" ++ TAB ++ fmt_u (cached_sq_head ctx) ++ LF) in
  let m := seq_printf m ("CqMask:" ++ TAB ++ "0x" ++ fmt_x (cq_mask_of ctx) ++ LF) in
  let m := seq_printf m ("CqHead:" ++ TAB ++ fmt_u (cq_head r) ++ LF) in
  let m := seq_printf m ("CqTail:" ++ TAB ++ fmt_u (cq_tail r) ++ LF) in
  seq_printf m ("CachedCqTail:" ++ TAB ++ fmt_u (cached_cq_tail ctx) ++ LF).

Definition __io_uring_show_fdinfo (fuel : nat) (ctx : io_ring_ctx) (m : seq_file)
    : M seq_file :=
  r <- lift (deref (rings ctx)) ;;
  let m := show_cursors ctx r m in
  let m := show_sq_section ctx r m in
  m <- lift (show_cq_section ctx r fuel m) ;;
  st <- read_sqpoll ctx ;;
  let m := show_sqpoll st m in
  let m := show_user_files ctx m in
  let m := show_user_bufs ctx m in
  m <- lift (show_poll_list ctx m) ;;
  m <- show_overflow ctx m ;;
  ret (napi_show_fdinfo ctx m).

(** The entry point, called by task [me] for the ring [ctx] behind the file. *)
Definition io_uring_show_fdinfo (fuel : nat) (me : Z) (ctx : io_ring_ctx)
    (m : seq_file) : M seq_file :=
  locked <- mutex_trylock me ;;
  if locked then
    m' <- __io_uring_show_fdinfo fuel ctx m ;;
    mutex_unlock ;;;
    ret m'
  else ret m.

(** *** The dumper (source lines 248-344) *)

Definition io_uring_dump_req (prefix : string) (req : io_kiocb) : M unit :=
  pr_warn (prefix ++ ": op=" ++ io_uring_get_opcode K (req_opcode req)
           ++ ", flags=0x" ++ fmt_x (req_flags req)
           ++ ", user_data=" ++ fmt_u (cqe_user_data (req_cqe req))
           ++ ", refs=" ++ fmt_d (refs req)
           ++ ", poll_refs=" ++ fmt_d (poll_refs req)
           ++ ", task=" ++ fmt_d (match tctx req with
                                  | Some t => pid (task t)
                                  | None => -1
                                  end)
           ++ ", cancel_seq=" ++ fmt_d (work_cancel_seq req)
           ++ "/" ++ fmt_d (cancel_seq_set req)
           ++ ", tw=" ++ fmt_ps K (io_task_work_func req) ++ LF).

(** A loop over a list or chain whose body is a logging action. *)
Fixpoint for_each {A} (l : list A) (body : A -> M unit) : M unit :=
  match l with
  | [] => ret tt
  | x :: rest => body x ;;; for_each rest body
  end.

Definition io_uring_dump_llist (name : string) (list : list io_kiocb) : M unit :=
  match list with
  | [] => ret tt
  | _ :: _ =>
      pr_warn ("  " ++ name ++ ":" ++ LF) ;;;
      for_each list (io_uring_dump_req "    req")
  end.

Definition io_uring_dump_task_works (t : task_struct) : M unit :=
  for_each (task_works t)
    (fun func => pr_warn ("      task_work: " ++ fmt_ps K func ++ LF)).

Definition dump_poll_req (req : io_kiocb) : M unit :=
  io_uring_dump_req "    poll" req ;;;
  match tctx req with
  | Some t =>
      if task_work_pending (task t) then io_uring_dump_task_works (task t)
      else ret tt
  | None => ret tt
  end.

Fixpoint dump_poll_buckets (ctx : io_ring_ctx) (n : nat) (i : Z) : M unit :=
  match n with
  | O => ret tt
  | S n' =>
      for_each (hbs (cancel_table ctx) i) dump_poll_req ;;;
      dump_poll_buckets ctx n' (i + 1)
  end.

(** The task [me] calls the dumper for [ctx]. *)
Definition io_uring_dump_reqs (me : Z) (ctx : io_ring_ctx) (prefix : string)
    : M unit :=
  lockdep_assert_held me ;;;
  pr_warn (prefix ++ ": ring " ++ fmt_p K (ctx_addr ctx)
           ++ ", flags=0x" ++ fmt_x (flags ctx) ++ LF) ;;;
  match rings ctx with
  | Some r =>
      pr_warn ("  SQ: head=" ++ fmt_u (sq_head r) ++ ", tail=" ++ fmt_u (sq_tail r)
               ++ " (cached_head=" ++ fmt_u (cached_sq_head ctx) ++ ")" ++ LF) ;;;
      pr_warn ("  CQ: head=" ++ fmt_u (cq_head r) ++ ", tail=" ++ fmt_u (cq_tail r)
               ++ " (cached_tail=" ++ fmt_u (cached_cq_tail ctx) ++ ")" ++ LF)
  | None => ret tt
  end ;;;
  pr_warn ("  nr_req_allocated: " ++ fmt_u (nr_req_allocated ctx) ++ LF) ;;;
  pr_warn ("  cancel_seq: " ++ fmt_d (cancel_seq ctx) ++ LF) ;;;
  pr_warn ("  PollList:" ++ LF) ;;;
  dump_poll_buckets ctx (Z.to_nat (nr_buckets ctx)) 0 ;;;
  io_uring_dump_llist "work_llist" (work_llist ctx) ;;;
  io_uring_dump_llist "retry_llist" (retry_llist ctx) ;;;
  io_uring_dump_llist "fallback_llist" (fallback_llist ctx) ;;;
  match defer_list ctx with
  | [] => ret tt
  | _ :: _ =>
      pr_warn ("  defer_list:" ++ LF) ;;;
      for_each (defer_list ctx) (fun de => io_uring_dump_req "    req" (de_req de))
  end ;;;
  spin_lock ;;;
  let count := u32 (Z.of_nat (List.length (cq_overflow_list ctx))) in
  spin_unlock ;;;
  if negb (count =? 0)
  then pr_warn ("  cq_overflow_list: " ++ fmt_u count ++ " CQEs" ++ LF)
  else ret tt.

End Fdinfo.

(** ** Sample instantiation

    Concrete values for the environment and a few rings, on which the
    statements below are exercised. *)

Definition sample_env : kernel_env := {|
  IORING_OP_LAST := 66;
  is_128 := fun op => (op =? 64) || (op =? 65);
  io_uring_get_opcode := fun op =>
    if op =? 0 then "NOP" else if op =? 64 then "NOP128" else "READV";
  IORING_SETUP_SQPOLL := 2;
  IORING_SETUP_SQE128 := 1024;
  IORING_SETUP_CQE32 := 2048;
  IORING_SETUP_NO_SQARRAY := 65536;
  IORING_SETUP_SQE_MIXED := 524288;
  IORING_CQE_F_32 := 32768;
  CONFIG_NET_RX_BUSY_POLL := false;
  IO_URING_NAPI_TRACKING_INACTIVE := 255;
  IO_URING_NAPI_TRACKING_DYNAMIC := 0;
  IO_URING_NAPI_TRACKING_STATIC := 1;
  file_path := fun f => "/dev/null";
  io_sq_cpu_usec := fun _ => 0;
  fmt_p := fun p => "0x" ++ fmt_x p;
  fmt_ps := fun p => "0x" ++ fmt_x p
|}.

Definition sample_cqe (cflags : Z) : io_uring_cqe :=
  {| cqe_user_data := 7; cqe_res := 0; cqe_flags := cflags;
     big_cqe0 := 1; big_cqe1 := 2 |}.

Definition sample_sqe (opcode : Z) : io_uring_sqe :=
  {| sqe_opcode := opcode; sqe_flags := 0; sqe_fd := 3; sqe_off := 0;
     sqe_addr := 0; sqe_rw_flags := 0; sqe_buf_index := 0; sqe_user_data := 42;
     sqe_word := fun _ => 0 |}.

Definition sample_rings (sqh sqt cqh cqt cflags : Z) : io_rings :=
  {| sq_head := sqh; sq_tail := sqt; cq_head := cqh; cq_tail := cqt;
     cqes := fun _ => sample_cqe cflags |}.

(** A ring of eight submission and sixteen completion slots, without SQ
    array indirection data ([sq_array] is the identity), whose submission
    slots all hold [opcode]; two registered files out of three slots and
    one registered buffer out of two. *)
Definition sample_ctx (ring_flags : Z) (r : io_rings) (opcode : Z) : io_ring_ctx :=
  {| ctx_addr := 4096;
     flags := ring_flags;
     sq_entries := 8;
     cq_entries := 16;
     rings := Some r;
     cached_sq_head := sq_head r;
     cached_cq_tail := cq_tail r;
     sq_array := fun i => i;
     sq_sqes := fun _ => sample_sqe opcode;
     sq_data := None;
     file_table := {| file_nr := 3;
                      file_nodes := fun i => if i =? 1 then None
                                             else Some {| io_slot_file := Some i |} |};
     buf_table := {| buf_nr := 2;
                     buf_nodes := fun i =>
                       if i =? 0 then Some {| buf := Some {| ubuf := 65536; len := 4096 |} |}
                       else None |};
     cancel_table := {| hash_bits := 1; hbs := fun _ => [] |};
     cq_overflow_list := [];
     work_llist := [];
     retry_llist := [];
     fallback_llist := [];
     defer_list := [];
     nr_req_allocated := 0;
     cancel_seq := 0;
     napi_track_mode := 255;
     napi_busy_poll_dt := 0;
     napi_prefer_busy_poll := false |}.

Definition sample_sys (owner : option Z) : sys :=
  {| uring_lock := owner; sync := []; dmesg := "" |}.

(** A window of one completion across the wrap of the 32-bit cursors. *)
Definition wrapped_rings : io_rings := sample_rings 0 0 4294967295 0 0.
Definition wrapped_ctx : io_ring_ctx := sample_ctx 0 wrapped_rings 0.

(** One completion below the largest cursor value, on a ring with the
    ring-wide 32-byte completion flag. *)
Definition edge_rings : io_rings := sample_rings 0 0 4294967294 4294967295 0.
Definition edge_ctx : io_ring_ctx := sample_ctx 2048 edge_rings 0.

(** One completion with the per-entry 32-byte flag, one slot before the tail. *)
Definition odd_rings : io_rings := sample_rings 0 0 0 1 32768.
Definition odd_ctx : io_ring_ctx := sample_ctx 0 odd_rings 0.

(** One submission whose opcode byte is 255, above every opcode. *)
Definition unknown_op_rings : io_rings := sample_rings 0 1 0 0 0.
Definition unknown_op_ctx : io_ring_ctx := sample_ctx 0 unknown_op_rings 255.

(** One submission with a 128-byte opcode, on a ring with the given flags. *)
Definition wide_op_rings (sqh : Z) : io_rings := sample_rings sqh (sqh + 1) 0 0 0.
Definition wide_op_ctx (ring_flags sqh : Z) : io_ring_ctx :=
  sample_ctx ring_flags (wide_op_rings sqh) 64.

(** Cursors that are a hundred apart on the ring of eight slots. *)
Definition overfull_rings : io_rings := sample_rings 0 100 0 0 0.
Definition overfull_ctx : io_ring_ctx := sample_ctx 0 overfull_rings 0.

(** Two ordinary submissions. *)
Definition two_nop_rings : io_rings := sample_rings 0 2 0 0 0.
Definition two_nop_ctx : io_ring_ctx := sample_ctx 0 two_nop_rings 0.

(** ** Texts of the sections

    The text that a part of the reporter appends, as a function of the
    ring alone: the part run on the empty sink. *)

(** Concatenation of texts, in order. *)
Definition cat (ls : list string) : string := fold_right String.append "" ls.

(** The indices [0, 1, ..., n-1] of a counted loop. *)
Definition zseq (n : nat) : list Z := map Z.of_nat (seq 0 n).

(** The entry line without its newline. *)
Definition sqe_line (K : kernel_env) (ctx : io_ring_ctx) (slot sq_idx opcode : Z)
    (sqe128 : bool) : string :=
  sqe_text K sq_idx opcode (sq_sqes ctx slot)
  ++ (if sqe128 then show_sqe_words (sq_sqes ctx (slot + 1)) "" else "").

(** Slot and opcode that iteration [i] reads when the local cursor is [sq_head]. *)
Definition sq_slot (K : kernel_env) (ctx : io_ring_ctx) (i sq_head : Z) : Z :=
  u32 (Z.shiftl (sq_index K ctx (sq_mask_of ctx) i sq_head) (sq_shift_of K ctx)).

Definition sq_opcode (K : kernel_env) (ctx : io_ring_ctx) (i sq_head : Z) : Z :=
  sqe_opcode (sq_sqes ctx (sq_slot K ctx i sq_head)).

(** The line of iteration [i] for an entry that passes the guards. *)
Definition sq_line_at (K : kernel_env) (ctx : io_ring_ctx) (sq_head i : Z) : string :=
  sqe_line K ctx (sq_slot K ctx i sq_head) (sq_index K ctx (sq_mask_of ctx) i sq_head)
           (sq_opcode K ctx i sq_head) (negb (sq_shift_of K ctx =? 0)).

(** An entry that the scan prints as an ordinary line: index and opcode in
    range, and no 128-byte opcode on a ring of 64-byte entries. *)
Definition plain_entry (K : kernel_env) (ctx : io_ring_ctx) (sq_head i : Z) : Prop :=
  sq_index K ctx (sq_mask_of ctx) i sq_head <= sq_mask_of ctx
  /\ sq_opcode K ctx i sq_head < IORING_OP_LAST K
  /\ (sq_shift_of K ctx = 0 -> is_128 K (sq_opcode K ctx i sq_head) = false).

(** The per-entry part of the SQ section. *)
Definition sq_entry_text (K : kernel_env) (ctx : io_ring_ctx) (r : io_rings) : string :=
  sq_loop K ctx (sq_mask_of ctx) (sq_shift_of K ctx)
          (Z.to_nat (sq_scan_count ctx r)) 0 (sq_head r) "".

Definition sq_header (r : io_rings) : string :=
  "SQEs:" ++ TAB ++ fmt_u (u32 (sq_tail r - sq_head r)) ++ LF.

(** The statement that the SQ section prints one line per enqueued entry. *)
Definition one_line_per_enqueued_sqe (K : kernel_env) (ctx : io_ring_ctx)
    (r : io_rings) : Prop :=
  u32 (sq_tail r - sq_head r) <= sq_entries ctx ->
  List.length (fst (split_lines (sq_entry_text K ctx r)))
  = Z.to_nat (u32 (sq_tail r - sq_head r)).

(** The text of one iteration of the CQ scan. *)
Definition cq_entry_text (K : kernel_env) (ctx : io_ring_ctx) (r : io_rings)
    (cq_mask cq_head : Z) : string :=
  fst (cq_body K ctx r cq_mask cq_head "").

Definition cq_header (r : io_rings) : string :=
  "CQEs:" ++ TAB ++ fmt_u (u32 (cq_tail r - cq_head r)) ++ LF.

(** The statement that the CQ scan consumes exactly the enqueued slots. *)
Definition consumes_enqueued_cqes (K : kernel_env) (ctx : io_ring_ctx)
    (r : io_rings) : Prop :=
  exists fuel vs,
    cq_visits K ctx r (cq_mask_of ctx) (cq_tail r) fuel (cq_head r) = Some vs
    /\ slots_consumed vs = u32 (cq_tail r - cq_head r).

(** Lines of the table sections, without their newline. *)
Definition user_buf_line (ctx : io_ring_ctx) (i : Z) : string :=
  match buf_of_slot ctx i with
  | Some b => fmt_5u i ++ ": 0x" ++ fmt_x (ubuf b) ++ "/" ++ fmt_u (len b)
  | None => fmt_5u i ++ ": <none>"
  end.

Definition user_file_line (K : kernel_env) (f_at : Z -> option Z) (i : Z) : string :=
  match f_at i with
  | Some f => fmt_5u i ++ ": " ++ file_path K f
  | None => ""
  end.

Definition buf_occupied (ctx : io_ring_ctx) (i : Z) : bool :=
  match buf_of_slot ctx i with Some _ => true | None => false end.

Definition file_occupied (ctx : io_ring_ctx) (i : Z) : bool :=
  match file_of_slot ctx i with Some _ => true | None => false end.

(** What the file loop appends for slot [i]. *)
Definition user_file_text (K : kernel_env) (ctx : io_ring_ctx) (i : Z) : string :=
  if file_occupied ctx i then user_file_line K (file_of_slot ctx) i ++ LF else "".

(** The per-slot parts of the two table sections. *)
Definition user_bufs_text (ctx : io_ring_ctx) : string :=
  for_upto (Z.to_nat (buf_nr (buf_table ctx))) 0 (user_buf_body ctx) "".

Definition user_files_text (K : kernel_env) (ctx : io_ring_ctx) : string :=
  for_upto (Z.to_nat (file_nr (file_table ctx))) 0 (user_file_body K ctx) "".

(** Assumptions on the helpers: opcode names are single words, and
    [seq_file_path] escapes the newline (its escape set is [" \t\n\\"]). *)
Definition names_one_line (K : kernel_env) : Prop :=
  forall op, count_nl (io_uring_get_opcode K op) = 0%nat.

Definition paths_one_line (K : kernel_env) : Prop :=
  forall f, count_nl (file_path K f) = 0%nat.

(** ** Effects of an action

    [logs_with c ops]: the action [c] always returns, leaves the owner of
    the ring lock alone, performs exactly the synchronisation operations
    [ops], and appends some text to the kernel log. *)
Definition logs_with (c : M unit) (ops : list sync_op) : Prop :=
  forall s, exists text,
    c s = Done (tt, {| uring_lock := uring_lock s;
                       sync := (sync s ++ ops)%list;
                       dmesg := dmesg s ++ text |}).

(** Operations on the ring lock. *)
Definition on_uring_lock (op : sync_op) : bool :=
  match op with
  | TryLockUring _ | UnlockUring => true
  | _ => false
  end.

(** Every request chained in the poll table has a task context. *)
Definition poll_tasks_present (ctx : io_ring_ctx) : Prop :=
  forall i req, In req (hbs (cancel_table ctx) i) -> tctx req <> None.

(** ** Texts and values of the remaining sections *)

(** What the reporter shows when the ring does not poll or its thread is gone. *)
Definition sqpoll_none : sqpoll_status :=
  {| sq_pid := -1; sq_cpu_no := -1; sq_total_time := 0; sq_work_time := 0 |}.

(** The values of the SQ poll block, read off the ring. *)
Definition sqpoll_status_of (K : kernel_env) (ctx : io_ring_ctx) : sqpoll_status :=
  if has_flag (flags ctx) (IORING_SETUP_SQPOLL K) then
    match sq_data ctx with
    | Some sq =>
        match thread sq with
        | Some tsk => {| sq_pid := task_pid sq; sq_cpu_no := sq_cpu sq;
                         sq_total_time := io_sq_cpu_usec K tsk;
                         sq_work_time := work_time sq |}
        | None => sqpoll_none
        end
    | None => sqpoll_none
    end
  else sqpoll_none.

Definition sqpoll_sync (K : kernel_env) (ctx : io_ring_ctx) : list sync_op :=
  if has_flag (flags ctx) (IORING_SETUP_SQPOLL K)
  then [RcuReadLock; RcuReadUnlock] else [].

(** The line of a request of the poll table that has its task context. *)
Definition poll_line (req : io_kiocb) : string :=
  match tctx req with
  | Some t => "  op=" ++ fmt_d (req_opcode req) ++ ", task_works="
              ++ fmt_d (bool_to_int (task_work_pending (task t))) ++ LF
  | None => ""
  end.

(** The requests of the poll table, bucket after bucket. *)
Definition poll_requests_from (ctx : io_ring_ctx) (n : nat) (i : Z) : list io_kiocb :=
  flat_map (hbs (cancel_table ctx)) (map (Z.add i) (zseq n)).

Definition poll_requests (ctx : io_ring_ctx) : list io_kiocb :=
  poll_requests_from ctx (Z.to_nat (nr_buckets ctx)) 0.

Definition poll_list_text (ctx : io_ring_ctx) : string :=
  "PollList:" ++ LF ++ cat (map poll_line (poll_requests ctx)).

Definition overflow_list_text (ctx : io_ring_ctx) : string :=
  "CqOverflowList:" ++ LF ++ cat (map overflow_text (cq_overflow_list ctx)).

(** An entry that passes the index guard and the opcode guard. *)
Definition sq_passes (K : kernel_env) (ctx : io_ring_ctx) (sq_head i : Z) : bool :=
  (sq_index K ctx (sq_mask_of ctx) i sq_head <=? sq_mask_of ctx)
  && (sq_opcode K ctx i sq_head <? IORING_OP_LAST K).

(** What an iteration appends when no 128-byte opcode meets a 64-byte ring. *)
Definition sq_entry_or_skip (K : kernel_env) (ctx : io_ring_ctx) (sq_head i : Z)
    : string :=
  if sq_passes K ctx sq_head i then sq_line_at K ctx sq_head i ++ LF else "".

(** Lines that a list of requests adds to the dump: none for an empty list. *)
Definition llist_lines (l : list io_kiocb) : nat :=
  match l with
  | [] => O
  | _ :: _ => S (List.length l)
  end.

(** Lines of one request of the poll table in the dump: its own line and
    one per queued task work of its task. *)
Definition poll_req_lines (req : io_kiocb) : nat :=
  match tctx req with
  | Some t => S (List.length (task_works (task t)))
  | None => 1%nat
  end.

(** The texts of the helpers used by the dump hold no newline. *)
Definition dump_helpers_one_line (K : kernel_env) : Prop :=
  names_one_line K
  /\ (forall p, count_nl (fmt_p K p) = 0%nat)
  /\ (forall p, count_nl (fmt_ps K p) = 0%nat).

(** [logs_lines c ops n]: as [logs_with], and the text has [n] lines. *)
Definition logs_lines (c : M unit) (ops : list sync_op) (n : nat) : Prop :=
  forall s, exists text,
    c s = Done (tt, {| uring_lock := uring_lock s;
                       sync := (sync s ++ ops)%list;
                       dmesg := dmesg s ++ text |})
    /\ count_nl text = n.

(** Lines of the whole dump: the heading, the two cursor lines when the
    rings are there, the two counters, the poll list with its heading, the
    three work lists, the deferred requests, and the overflow count when
    it is not zero. *)
Definition dump_lines (ctx : io_ring_ctx) : nat :=
  (1 + (match rings ctx with Some _ => 2 | None => 0 end) + 3
   + list_sum (map poll_req_lines (poll_requests ctx))
   + llist_lines (work_llist ctx) + llist_lines (retry_llist ctx)
   + llist_lines (fallback_llist ctx)
   + (match defer_list ctx with [] => 0 | _ :: _ => S (List.length (defer_list ctx)) end)
   + (if Z.eqb (u32 (Z.of_nat (List.length (cq_overflow_list ctx)))) 0%Z then 0 else 1))%nat.

(** A ring like [sample_ctx] whose submission slots and SQ array are given. *)
Definition custom_ctx (ring_flags : Z) (r : io_rings) (sqes : Z -> io_uring_sqe)
    (array : Z -> Z) (polled : list io_kiocb) (overflow : list io_overflow_cqe)
    (sqd : option io_sq_data) : io_ring_ctx :=
  {| ctx_addr := 4096;
     flags := ring_flags;
     sq_entries := 8;
     cq_entries := 16;
     rings := Some r;
     cached_sq_head := sq_head r;
     cached_cq_tail := cq_tail r;
     sq_array := array;
     sq_sqes := sqes;
     sq_data := sqd;
     file_table := {| file_nr := 0; file_nodes := fun _ => None |};
     buf_table := {| buf_nr := 0; buf_nodes := fun _ => None |};
     cancel_table := {| hash_bits := 1;
                        hbs := fun i => if i =? 1 then polled else [] |};
     cq_overflow_list := overflow;
     work_llist := polled;
     retry_llist := [];
     fallback_llist := [];
     defer_list := map (fun q => {| de_req := q |}) polled;
     nr_req_allocated := Z.of_nat (List.length polled);
     cancel_seq := 0;
     napi_track_mode := 7;
     napi_busy_poll_dt := 0;
     napi_prefer_busy_poll := false |}.

Definition sample_task (works : list Z) : io_uring_task :=
  {| task := {| pid := 100; task_works := works |} |}.

Definition sample_req (opcode : Z) (t : option io_uring_task) : io_kiocb :=
  {| req_opcode := opcode; req_flags := 0; req_cqe := sample_cqe 0;
     refs := 1; poll_refs := 0; tctx := t; work_cancel_seq := 0;
     cancel_seq_set := 0; io_task_work_func := 0 |}.

(** Slots 0 and 2 hold a NOP, slot 1 the opcode byte 255; the SQ array
    sends cursor 3 to the index 9, outside the ring. *)
Definition gappy_rings : io_rings := sample_rings 0 4 0 0 0.
Definition gappy_ctx : io_ring_ctx :=
  custom_ctx 0 gappy_rings
    (fun slot => sample_sqe (if slot =? 1 then 255 else 0))
    (fun i => if i =? 3 then 9 else i)
    [sample_req 6 (Some (sample_task [11; 12])); sample_req 6 (Some (sample_task []))]
    [{| ocqe_cqe := sample_cqe 0 |}; {| ocqe_cqe := sample_cqe 2 |}]
    (Some {| thread := None; task_pid := 55; sq_cpu := 3; work_time := 9 |}).

(** The same ring set up with a poll thread that is running, and without
    SQ array. *)
Definition polling_ctx : io_ring_ctx :=
  custom_ctx (2 + 65536) gappy_rings
    (fun slot => sample_sqe (if slot =? 1 then 255 else 0))
    (fun i => if i =? 3 then 9 else i)
    [sample_req 6 (Some (sample_task [11; 12])); sample_req 6 None]
    [{| ocqe_cqe := sample_cqe 0 |}]
    (Some {| thread := Some {| pid := 55; task_works := [] |};
             task_pid := 55; sq_cpu := 3; work_time := 9 |}).

(** The environment with the busy-poll block compiled in. *)
Definition napi_env : kernel_env := {|
  IORING_OP_LAST := IORING_OP_LAST sample_env;
  is_128 := is_128 sample_env;
  io_uring_get_opcode := io_uring_get_opcode sample_env;
  IORING_SETUP_SQPOLL := 2;
  IORING_SETUP_SQE128 := 1024;
  IORING_SETUP_CQE32 := 2048;
  IORING_SETUP_NO_SQARRAY := 65536;
  IORING_SETUP_SQE_MIXED := 524288;
  IORING_CQE_F_32 := 32768;
  CONFIG_NET_RX_BUSY_POLL := true;
  IO_URING_NAPI_TRACKING_INACTIVE := 255;
  IO_URING_NAPI_TRACKING_DYNAMIC := 0;
  IO_URING_NAPI_TRACKING_STATIC := 1;
  file_path := file_path sample_env;
  io_sq_cpu_usec := io_sq_cpu_usec sample_env;
  fmt_p := fmt_p sample_env;
  fmt_ps := fmt_ps sample_env
|}.

(** ** The Tausworthe generator of [lib/random32.c] *)

Record rnd_state := { s1 : Z; s2 : Z; s3 : Z; s4 : Z }.

(** The macro [TAUSWORTHE(s, a, b, c, d)] on 32-bit unsigned operands:
    [((s & c) << d) ^ (((s << a) ^ s) >> b)]. *)
Definition TAUSWORTHE (s a b c d : Z) : Z :=
  Z.lxor (u32 (Z.shiftl (Z.land s c) d))
         (Z.shiftr (Z.lxor (u32 (Z.shiftl s a)) s) b).

(** The returned number and the state as the call leaves it. *)
Definition prandom_u32_state (state : rnd_state) : Z * rnd_state :=
  let n1 := TAUSWORTHE (s1 state) 6 13 4294967294 18 in
  let n2 := TAUSWORTHE (s2 state) 2 27 4294967288 2 in
  let n3 := TAUSWORTHE (s3 state) 13 21 4294967280 7 in
  let n4 := TAUSWORTHE (s4 state) 3 12 4294967168 13 in
  (Z.lxor (Z.lxor (Z.lxor n1 n2) n3) n4,
   {| s1 := n1; s2 := n2; s3 := n3; s4 := n4 |}).

(** A store into the buffer: a 32-bit word by [put_unaligned], or one byte.
    The stores are kept in address order; a word takes four bytes. *)
Inductive store :=
| StoreU32 (w : Z)
| StoreU8 (b : Z).

Definition store_size (st : store) : Z :=
  match st with
  | StoreU32 _ => 4
  | StoreU8 _ => 1
  end.

Definition buffer_size (out : list store) : Z :=
  fold_right (fun st acc => store_size st + acc) 0 out.

(** [while (bytes >= sizeof(u32))]: state, bytes left and stores at exit;
    [fuel] bounds the iterations. *)
Fixpoint fill_words (fuel : nat) (state : rnd_state) (bytes : Z) (out : list store)
    : rnd_state * Z * list store :=
  match fuel with
  | O => (state, bytes, out)
  | S fuel' =>
      if 4 <=? bytes then
        let (x, state') := prandom_u32_state state in
        fill_words fuel' state' (bytes - 4) (out ++ [StoreU32 x])%list
      else (state, bytes, out)
  end.

(** [do { *ptr++ = (u8) rem; bytes--; rem >>= BITS_PER_BYTE; } while (bytes > 0)]. *)
Fixpoint fill_tail (fuel : nat) (rem bytes : Z) (out : list store) : list store :=
  match fuel with
  | O => out
  | S fuel' =>
      let out := (out ++ [StoreU8 (rem mod 256)])%list in
      let bytes := bytes - 1 in
      let rem := Z.shiftr rem 8 in
      if 0 <? bytes then fill_tail fuel' rem bytes out else out
  end.

Definition prandom_bytes_state (state : rnd_state) (bytes : Z)
    : rnd_state * list store :=
  let '(state, bytes, out) := fill_words (Z.to_nat bytes) state bytes [] in
  if 0 <? bytes then
    let (rem, state) := prandom_u32_state state in
    (state, fill_tail (Z.to_nat bytes) rem bytes out)
  else (state, out).

Definition prandom_warmup (state : rnd_state) : rnd_state :=
  let state := snd (prandom_u32_state state) in
  let state := snd (prandom_u32_state state) in
  let state := snd (prandom_u32_state state) in
  let state := snd (prandom_u32_state state) in
  let state := snd (prandom_u32_state state) in
  let state := snd (prandom_u32_state state) in
  let state := snd (prandom_u32_state state) in
  let state := snd (prandom_u32_state state) in
  let state := snd (prandom_u32_state state) in
  snd (prandom_u32_state state).

Section Seeding.

(** [__seed(x, m)] of the header, and the four words that
    [get_random_bytes] hands out for each possible CPU. *)
Variable __seed : Z -> Z -> Z.

Definition seed_cpu_state (seeds : Z * Z * Z * Z) : rnd_state :=
  let '(a, b, c, d) := seeds in
  prandom_warmup {| s1 := __seed a 2; s2 := __seed b 8;
                    s3 := __seed c 16; s4 := __seed d 128 |}.

(** The per-CPU states after the call, one for each possible CPU. *)
Definition prandom_seed_full_state (random : list (Z * Z * Z * Z)) : list rnd_state :=
  map seed_cpu_state random.

End Seeding.

(** The recurrence condition of the header comment:
    [s1 > 1, s2 > 7, s3 > 15, s4 > 127], on 32-bit values. *)
Definition seeded (st : rnd_state) : Prop :=
  (1 < s1 st < U32_MOD) /\ (7 < s2 st < U32_MOD)
  /\ (15 < s3 st < U32_MOD) /\ (127 < s4 st < U32_MOD).

(** The first [n] numbers of the generator and the state after them. *)
Fixpoint prandom_stream (n : nat) (state : rnd_state) : list Z * rnd_state :=
  match n with
  | O => ([], state)
  | S n' =>
      let (x, state1) := prandom_u32_state state in
      let (xs, state2) := prandom_stream n' state1 in
      (x :: xs, state2)
  end.

(** The [n] low bytes of a word, lowest first. *)
Fixpoint low_bytes (n : nat) (w : Z) : list Z :=
  match n with
  | O => []
  | S n' => (w mod 256) :: low_bytes n' (Z.shiftr w 8)
  end.

(** All bits of [x] from position [k] on are zero. *)
Definition bits_clear_from (k x : Z) : Prop :=
  forall j, k <= j -> Z.testbit x j = false.

(** [__seed] as the kernel header defines it, used on the samples. *)
Definition sample_seed (x m : Z) : Z := if x <? m then x + m else x.

Definition sample_rnd : rnd_state := {| s1 := 2; s2 := 8; s3 := 16; s4 := 128 |}.

(** ** Properties of texts *)

Lemma append_nil_r (s : string) : s ++ "" = s.
Proof. induction s as [|c s IH]; simpl; [reflexivity | now rewrite IH]. Qed.

Lemma append_assoc (a b c : string) : (a ++ b) ++ c = a ++ (b ++ c).
Proof. induction a as [|x a IH]; simpl; [reflexivity | now rewrite IH]. Qed.

Lemma count_nl_app (a b : string) :
  count_nl (a ++ b) = (count_nl a + count_nl b)%nat.
Proof.
  induction a as [|c a IH]; simpl; [reflexivity|].
  rewrite IH. lia.
Qed.

Lemma count_nl_LF : count_nl LF = 1%nat.
Proof. reflexivity. Qed.

Lemma count_nl_TAB : count_nl TAB = 0%nat.
Proof. reflexivity. Qed.

Lemma count_nl_spaces (n : nat) : count_nl (spaces n) = 0%nat.
Proof. induction n; simpl; auto. Qed.

Lemma count_nl_dec_uint (d : Decimal.uint) :
  count_nl (DecimalString.NilEmpty.string_of_uint d) = 0%nat.
Proof. induction d; simpl; auto. Qed.

Lemma count_nl_hex_uint (d : Hexadecimal.uint) :
  count_nl (HexadecimalString.NilEmpty.string_of_uint d) = 0%nat.
Proof. induction d; simpl; auto. Qed.

Lemma count_nl_fmt_u (x : Z) : count_nl (fmt_u x) = 0%nat.
Proof.
  unfold fmt_u, DecimalString.NilZero.string_of_uint.
  destruct (N.to_uint (Z.to_N x)); try reflexivity; apply count_nl_dec_uint.
Qed.

Lemma count_nl_fmt_x (x : Z) : count_nl (fmt_x x) = 0%nat.
Proof.
  unfold fmt_x, HexadecimalString.NilZero.string_of_uint.
  destruct (N.to_hex_uint (Z.to_N x)); try reflexivity; apply count_nl_hex_uint.
Qed.

Lemma count_nl_fmt_d (x : Z) : count_nl (fmt_d x) = 0%nat.
Proof.
  unfold fmt_d, DecimalString.NilZero.string_of_int.
  destruct (Z.to_int x) as [d|d].
  - unfold DecimalString.NilZero.string_of_uint.
    destruct d; try reflexivity; apply count_nl_dec_uint.
  - simpl. unfold DecimalString.NilZero.string_of_uint.
    destruct d; try reflexivity; apply count_nl_dec_uint.
Qed.

Lemma count_nl_fmt_5u (x : Z) : count_nl (fmt_5u x) = 0%nat.
Proof.
  unfold fmt_5u. rewrite count_nl_app, count_nl_spaces, count_nl_fmt_u. reflexivity.
Qed.

(** Splitting a text whose first line is known. *)
Lemma split_lines_cons (a rest : string) :
  count_nl a = 0%nat ->
  split_lines (a ++ LF ++ rest) =
  (a :: fst (split_lines rest), snd (split_lines rest)).
Proof.
  induction a as [|c a IH]; intros H.
  - simpl. destruct (split_lines rest); reflexivity.
  - change (String c a ++ LF ++ rest) with (String c (a ++ LF ++ rest)).
    cbn [split_lines]. simpl in H.
    destruct (Ascii.eqb c "010") eqn:E; [discriminate|].
    rewrite IH by lia. reflexivity.
Qed.

Lemma split_lines_one (a : string) :
  count_nl a = 0%nat -> split_lines (a ++ LF) = ([a], "").
Proof.
  intros H. rewrite <- (append_nil_r LF).
  rewrite split_lines_cons by assumption. reflexivity.
Qed.

Create Rewrite HintDb nl.
#[local] Hint Rewrite count_nl_app count_nl_LF count_nl_TAB count_nl_spaces
  count_nl_fmt_u count_nl_fmt_x count_nl_fmt_d count_nl_fmt_5u : nl.

(** Discharges a goal [count_nl text = n] for a text built from the
    conversions above and literals. *)
Ltac nl_count := autorewrite with nl; simpl; try reflexivity; try lia.

(** ** Properties of the loops *)

Lemma seq_printf_frame (m t : string) : seq_printf m t = m ++ seq_printf "" t.
Proof. reflexivity. Qed.

Lemma for_upto_frame (body : Z -> seq_file -> seq_file) :
  (forall i m, body i m = m ++ body i "") ->
  forall n i m, for_upto n i body m = m ++ for_upto n i body "".
Proof.
  intros Hb n. induction n as [|n IH]; intros i m; simpl.
  - now rewrite append_nil_r.
  - rewrite IH. rewrite (IH _ (body i "")).
    rewrite (Hb i m). now rewrite append_assoc.
Qed.

(** A counted loop whose body appends [text i] appends the texts in order. *)
Lemma for_upto_cat (body : Z -> seq_file -> seq_file) (text : Z -> string) :
  (forall i m, body i m = m ++ text i) ->
  forall n i, for_upto n i body "" = cat (map text (map (Z.add i) (zseq n))).
Proof.
  intros Hb n. unfold zseq. induction n as [|n IH]; intros i.
  - reflexivity.
  - cbn [for_upto]. rewrite for_upto_frame by (intros; rewrite !Hb; reflexivity).
    rewrite IH, Hb. cbn [seq map cat fold_right].
    rewrite <- seq_shift, !map_map.
    replace (i + Z.of_nat 0) with i by lia.
    simpl String.append at 1. unfold cat. f_equal. f_equal.
    apply map_ext. intros a. f_equal. lia.
Qed.

Lemma count_nl_cat (ls : list string) (k : nat) :
  Forall (fun l => count_nl l = k) ls ->
  count_nl (cat ls) = (k * List.length ls)%nat.
Proof.
  induction 1 as [|l ls Hl _ IH]; simpl; [lia|].
  rewrite count_nl_app, IH, Hl. lia.
Qed.

Lemma split_lines_cat (ls : list string) :
  Forall (fun l => count_nl l = 0%nat) ls ->
  split_lines (cat (map (fun l => l ++ LF) ls)) = (ls, "").
Proof.
  induction 1 as [|l ls Hl _ IH]; [reflexivity|].
  cbn [map cat fold_right]. fold (cat (map (fun l => l ++ LF) ls)).
  rewrite append_assoc, split_lines_cons, IH by assumption. reflexivity.
Qed.

Lemma u32_range (x : Z) : 0 <= u32 x < U32_MOD.
Proof. unfold u32, U32_MOD. apply Z.mod_pos_bound. reflexivity. Qed.

Lemma u32_small (x : Z) : 0 <= x < U32_MOD -> u32 x = x.
Proof. intros H. unfold u32. now apply Z.mod_small. Qed.

Lemma min_le_r (a b : Z) : min a b <= b.
Proof. unfold min. destruct (a <? b) eqn:E; [apply Z.ltb_lt in E|]; lia. Qed.

Lemma min_le_l (a b : Z) : min a b <= a.
Proof. unfold min. destruct (a <? b) eqn:E; [|apply Z.ltb_ge in E]; lia. Qed.

Lemma array_index_nospec_in_range (index size : Z) :
  index < size -> array_index_nospec index size = index.
Proof.
  intros H. unfold array_index_nospec.
  destruct (index <? size) eqn:E; [reflexivity|]. apply Z.ltb_ge in E. lia.
Qed.

Section Properties.

Variable K : kernel_env.

(** *** Submission queue *)

Lemma show_sqe_words_frame (sqeb : io_uring_sqe) (m : seq_file) :
  show_sqe_words sqeb m = m ++ show_sqe_words sqeb "".
Proof. unfold show_sqe_words. apply for_upto_frame. reflexivity. Qed.

Lemma show_sqe_eq (ctx : io_ring_ctx) (slot sq_idx opcode : Z) (sqe128 : bool)
    (m : seq_file) :
  show_sqe K ctx slot sq_idx opcode sqe128 m
  = m ++ sqe_line K ctx slot sq_idx opcode sqe128 ++ LF.
Proof.
  unfold show_sqe, sqe_line, seq_printf. destruct sqe128.
  - rewrite show_sqe_words_frame. now rewrite !append_assoc.
  - now rewrite append_nil_r, !append_assoc.
Qed.

Lemma count_nl_sqe_words (sqeb : io_uring_sqe) :
  count_nl (show_sqe_words sqeb "") = 0%nat.
Proof.
  unfold show_sqe_words.
  rewrite for_upto_cat
    with (text := fun j => ", e" ++ fmt_d j ++ ":0x" ++ fmt_x (sqe_word sqeb j))
    by reflexivity.
  rewrite count_nl_cat with (k := 0%nat); [reflexivity|].
  apply Forall_forall. intros l Hl. apply in_map_iff in Hl.
  destruct Hl as [j [<- _]]. nl_count.
Qed.

Lemma count_nl_sqe_line (ctx : io_ring_ctx) (slot sq_idx opcode : Z) (sqe128 : bool) :
  names_one_line K ->
  count_nl (sqe_line K ctx slot sq_idx opcode sqe128) = 0%nat.
Proof.
  intros Hn. unfold sqe_line, sqe_text. rewrite !count_nl_app, Hn.
  destruct sqe128; [rewrite count_nl_sqe_words|]; nl_count.
Qed.

(** The loop body only appends to the sink. *)
Lemma sq_body_frame (ctx : io_ring_ctx) (sq_mask sq_shift i sq_head : Z)
    (m : seq_file) :
  sq_body K ctx sq_mask sq_shift i sq_head m
  = match sq_body K ctx sq_mask sq_shift i sq_head "" with
    | Next h t => Next h (m ++ t)
    | Break t => Break (m ++ t)
    end.
Proof.
  unfold sq_body.
  repeat match goal with
         | |- context [if ?c then _ else _] => destruct c
         end;
    rewrite ?show_sqe_eq, ?append_nil_r; try reflexivity.
Qed.

Lemma sq_loop_frame (ctx : io_ring_ctx) (sq_mask sq_shift : Z) (n : nat) :
  forall i sq_head m,
    sq_loop K ctx sq_mask sq_shift n i sq_head m
    = m ++ sq_loop K ctx sq_mask sq_shift n i sq_head "".
Proof.
  induction n as [|n IH]; intros i h m; cbn [sq_loop].
  - now rewrite append_nil_r.
  - rewrite (sq_body_frame ctx sq_mask sq_shift i h m).
    destruct (sq_body K ctx sq_mask sq_shift i h "") as [h' t|t].
    + rewrite IH. rewrite (IH _ _ t). now rewrite append_assoc.
    + reflexivity.
Qed.

Lemma show_sq_section_eq (ctx : io_ring_ctx) (r : io_rings) (m : seq_file) :
  show_sq_section K ctx r m = m ++ sq_header r ++ sq_entry_text K ctx r.
Proof.
  unfold show_sq_section, sq_entry_text, sq_header, seq_printf.
  rewrite sq_loop_frame. now rewrite append_assoc.
Qed.

(** Every iteration appends at most one line. *)
Lemma sq_body_one_line (ctx : io_ring_ctx) (sq_mask sq_shift i sq_head : Z) :
  names_one_line K ->
  match sq_body K ctx sq_mask sq_shift i sq_head "" with
  | Next _ t | Break t => (count_nl t <= 1)%nat
  end.
Proof.
  intros Hn. unfold sq_body, invalid_sqe_text, corrupted_sqe_text, seq_printf.
  repeat match goal with
         | |- context [if ?c then _ else _] => destruct c
         end;
    rewrite ?show_sqe_eq; cbn [String.append];
    rewrite ?count_nl_app, ?count_nl_sqe_line by assumption; nl_count.
Qed.

Lemma sq_loop_lines (ctx : io_ring_ctx) (sq_mask sq_shift : Z) (n : nat) :
  names_one_line K ->
  forall i sq_head,
    (count_nl (sq_loop K ctx sq_mask sq_shift n i sq_head "") <= n)%nat.
Proof.
  intros Hn. induction n as [|n IH]; intros i h; cbn [sq_loop].
  - simpl. lia.
  - pose proof (sq_body_one_line ctx sq_mask sq_shift i h Hn) as Hb.
    destruct (sq_body K ctx sq_mask sq_shift i h "") as [h' t|t].
    + rewrite sq_loop_frame, count_nl_app. specialize (IH (i + 1) h'). lia.
    + lia.
Qed.

Lemma sq_body_plain (ctx : io_ring_ctx) (i sq_head : Z) (m : seq_file) :
  plain_entry K ctx sq_head i ->
  sq_body K ctx (sq_mask_of ctx) (sq_shift_of K ctx) i sq_head m
  = Next sq_head (m ++ sq_line_at K ctx sq_head i ++ LF).
Proof.
  intros (Hidx & Hop & Hnarrow).
  unfold sq_line_at. unfold sq_opcode, sq_slot in *. unfold sq_body.
  destruct (sq_mask_of ctx <? _) eqn:E1; [apply Z.ltb_lt in E1; lia|].
  destruct (IORING_OP_LAST K <=? _) eqn:E2; [apply Z.leb_le in E2; lia|].
  rewrite array_index_nospec_in_range by assumption.
  destruct (sq_shift_of K ctx =? 0) eqn:E3; cbn [negb].
  - apply Z.eqb_eq in E3. rewrite (Hnarrow E3). now rewrite show_sqe_eq.
  - now rewrite show_sqe_eq.
Qed.

Lemma sq_loop_plain (ctx : io_ring_ctx) (sq_head : Z) (n : nat) :
  forall i,
    (forall j, i <= j < i + Z.of_nat n -> plain_entry K ctx sq_head j) ->
    sq_loop K ctx (sq_mask_of ctx) (sq_shift_of K ctx) n i sq_head ""
    = cat (map (fun j => sq_line_at K ctx sq_head j ++ LF) (map (Z.add i) (zseq n))).
Proof.
  unfold zseq. induction n as [|n IH]; intros i Hp; [reflexivity|].
  cbn [sq_loop]. rewrite sq_body_plain by (apply Hp; lia).
  rewrite sq_loop_frame, IH by (intros j Hj; apply Hp; lia).
  cbn [seq map cat fold_right]. rewrite <- seq_shift, !map_map.
  replace (i + Z.of_nat 0) with i by lia.
  simpl String.append at 1. unfold cat. f_equal. f_equal.
  apply map_ext. intros a. do 2 f_equal. lia.
Qed.

Lemma map_add_0 (l : list Z) : map (Z.add 0) l = l.
Proof. rewrite <- (map_id l) at 2. apply map_ext. intros a. lia. Qed.

Lemma zseq_length (n : nat) : List.length (zseq n) = n.
Proof. unfold zseq. now rewrite length_map, length_seq. Qed.

(** C2: a 128-byte opcode met on a ring that is neither globally 128-byte
    nor in mixed mode makes the scan print exactly one "invalid sqe" line
    for that entry and leave the loop: whatever the number of iterations
    still to run, nothing else is appended. *)
Theorem sq_scan_invalid_wide_entry (ctx : io_ring_ctx) (n : nat) (i sq_head : Z)
    (m : seq_file) :
  has_flag (flags ctx) (IORING_SETUP_SQE128 K) = false ->
  has_flag (flags ctx) (IORING_SETUP_SQE_MIXED K) = false ->
  sq_index K ctx (sq_mask_of ctx) i sq_head <= sq_mask_of ctx ->
  sq_opcode K ctx i sq_head < IORING_OP_LAST K ->
  is_128 K (sq_opcode K ctx i sq_head) = true ->
  let sq_idx := sq_index K ctx (sq_mask_of ctx) i sq_head in
  sq_loop K ctx (sq_mask_of ctx) (sq_shift_of K ctx) (S n) i sq_head m
  = m ++ invalid_sqe_text sq_idx
  /\ split_lines (invalid_sqe_text sq_idx)
     = ([fmt_5u sq_idx ++ ": invalid sqe, 128B entry on non-mixed sq"], "").
Proof.
  intros H128 Hmixed Hidx Hop Hwide sq_idx. split.
  - cbn [sq_loop]. unfold sq_body.
    unfold sq_opcode, sq_slot in *. fold sq_idx in Hidx, Hop, Hwide |- *.
    destruct (sq_mask_of ctx <? sq_idx) eqn:E1; [apply Z.ltb_lt in E1; lia|].
    destruct (IORING_OP_LAST K <=? _) eqn:E2; [apply Z.leb_le in E2; lia|].
    rewrite array_index_nospec_in_range by assumption.
    unfold sq_shift_of in *. rewrite H128 in *. cbn [Z.eqb negb].
    rewrite Hwide, Hmixed. reflexivity.
  - unfold invalid_sqe_text. rewrite <- append_assoc.
    apply split_lines_one. nl_count.
Qed.

(** C3: an entry whose opcode is [IORING_OP_LAST] or more appends nothing,
    and the scan goes on with the next iteration and the same cursor. *)
Theorem sq_scan_skips_unknown_opcode (ctx : io_ring_ctx) (n : nat) (i sq_head : Z)
    (m : seq_file) :
  IORING_OP_LAST K <= sq_opcode K ctx i sq_head ->
  sq_body K ctx (sq_mask_of ctx) (sq_shift_of K ctx) i sq_head m = Next sq_head m
  /\ sq_loop K ctx (sq_mask_of ctx) (sq_shift_of K ctx) (S n) i sq_head m
     = sq_loop K ctx (sq_mask_of ctx) (sq_shift_of K ctx) n (i + 1) sq_head m.
Proof.
  intros Hop.
  assert (Hb : sq_body K ctx (sq_mask_of ctx) (sq_shift_of K ctx) i sq_head m
               = Next sq_head m).
  { unfold sq_body. unfold sq_opcode, sq_slot in Hop.
    destruct (sq_mask_of ctx <? _); [reflexivity|].
    destruct (IORING_OP_LAST K <=? _) eqn:E2; [reflexivity|].
    apply Z.leb_gt in E2. lia. }
  split; [exact Hb|]. cbn [sq_loop]. now rewrite Hb.
Qed.

(** C5: in mixed mode, a 128-byte entry whose consumption moves the head
    cursor to a value that the mask sends to zero makes the scan print one
    "corrupted sqe" line for that entry and leave the loop. *)
Theorem sq_scan_wrapping_wide_entry (ctx : io_ring_ctx) (n : nat) (i sq_head : Z)
    (m : seq_file) :
  has_flag (flags ctx) (IORING_SETUP_SQE128 K) = false ->
  has_flag (flags ctx) (IORING_SETUP_SQE_MIXED K) = true ->
  sq_index K ctx (sq_mask_of ctx) i sq_head <= sq_mask_of ctx ->
  sq_opcode K ctx i sq_head < IORING_OP_LAST K ->
  is_128 K (sq_opcode K ctx i sq_head) = true ->
  Z.land (u32 (sq_head + 1)) (sq_mask_of ctx) = 0 ->
  let sq_idx := sq_index K ctx (sq_mask_of ctx) i sq_head in
  sq_loop K ctx (sq_mask_of ctx) (sq_shift_of K ctx) (S n) i sq_head m
  = m ++ corrupted_sqe_text sq_idx
  /\ split_lines (corrupted_sqe_text sq_idx)
     = ([fmt_5u sq_idx ++ ": corrupted sqe, wrapping 128B entry"], "").
Proof.
  intros H128 Hmixed Hidx Hop Hwide Hwrap sq_idx. split.
  - cbn [sq_loop]. unfold sq_body.
    unfold sq_opcode, sq_slot in *. fold sq_idx in Hidx, Hop, Hwide |- *.
    destruct (sq_mask_of ctx <? sq_idx) eqn:E1; [apply Z.ltb_lt in E1; lia|].
    destruct (IORING_OP_LAST K <=? _) eqn:E2; [apply Z.leb_le in E2; lia|].
    rewrite array_index_nospec_in_range by assumption.
    unfold sq_shift_of in *. rewrite H128 in *. cbn [Z.eqb negb].
    rewrite Hwide, Hmixed, Hwrap. reflexivity.
  - unfold corrupted_sqe_text. rewrite <- append_assoc.
    apply split_lines_one. nl_count.
Qed.

(** C9: the loop runs [min(tail - head, sq_entries)] times, which is at
    most the capacity whatever the two cursors hold, and the per-entry
    part of the section has at most one line per iteration. *)
Theorem sq_scan_bounded_by_capacity (ctx : io_ring_ctx) (r : io_rings)
    (m : seq_file) :
  names_one_line K ->
  0 <= sq_entries ctx ->
  show_sq_section K ctx r m = m ++ sq_header r ++ sq_entry_text K ctx r
  /\ sq_scan_count ctx r <= sq_entries ctx
  /\ Z.of_nat (count_nl (sq_entry_text K ctx r)) <= sq_scan_count ctx r.
Proof.
  intros Hn Hcap. split; [apply show_sq_section_eq|].
  split; [apply min_le_r|].
  unfold sq_entry_text.
  pose proof (sq_loop_lines ctx (sq_mask_of ctx) (sq_shift_of K ctx)
                (Z.to_nat (sq_scan_count ctx r)) Hn 0 (sq_head r)) as Hl.
  assert (0 <= sq_scan_count ctx r).
  { unfold sq_scan_count, min.
    pose proof (u32_range (sq_tail r - sq_head r)).
    destruct (_ <? _); lia. }
  lia.
Qed.

(** C7 (amended): when the window of [N = tail - head <= sq_entries]
    entries holds only entries that pass the index and opcode guards, none
    of them a 128-byte opcode on a ring of 64-byte entries, the section is
    the count line followed by exactly [N] entry lines, the [i]-th being
    the line of the entry at cursor [head + i]; with [head = tail] it is
    the count line [SQEs: 0] alone. *)
Theorem sq_section_lines_of_plain_entries (ctx : io_ring_ctx) (r : io_rings)
    (m : seq_file) :
  names_one_line K ->
  let N := u32 (sq_tail r - sq_head r) in
  N <= sq_entries ctx ->
  (forall i, 0 <= i < N -> plain_entry K ctx (sq_head r) i) ->
  show_sq_section K ctx r m
  = m ++ sq_header r
      ++ cat (map (fun i => sq_line_at K ctx (sq_head r) i ++ LF) (zseq (Z.to_nat N)))
  /\ split_lines (sq_entry_text K ctx r)
     = (map (sq_line_at K ctx (sq_head r)) (zseq (Z.to_nat N)), "")
  /\ List.length (fst (split_lines (sq_entry_text K ctx r))) = Z.to_nat N
  /\ (sq_head r = sq_tail r ->
      show_sq_section K ctx r m = m ++ "SQEs:" ++ TAB ++ "0" ++ LF).
Proof.
  intros Hn N Hcap Hplain.
  assert (Hcount : sq_scan_count ctx r = N).
  { unfold sq_scan_count, min. fold N.
    destruct (N <? sq_entries ctx) eqn:E; [reflexivity|].
    apply Z.ltb_ge in E. lia. }
  assert (HN : 0 <= N) by apply u32_range.
  assert (Htext : sq_entry_text K ctx r
                  = cat (map (fun i => sq_line_at K ctx (sq_head r) i ++ LF)
                             (zseq (Z.to_nat N)))).
  { unfold sq_entry_text. rewrite Hcount, sq_loop_plain.
    - now rewrite map_add_0.
    - intros j Hj. apply Hplain. lia. }
  assert (Hsplit : split_lines (sq_entry_text K ctx r)
                   = (map (sq_line_at K ctx (sq_head r)) (zseq (Z.to_nat N)), "")).
  { rewrite Htext.
    rewrite <- (map_map (sq_line_at K ctx (sq_head r)) (fun l => l ++ LF)).
    apply split_lines_cat. apply Forall_forall. intros l Hl.
    apply in_map_iff in Hl. destruct Hl as [j [<- _]].
    unfold sq_line_at. now apply count_nl_sqe_line. }
  repeat split.
  - now rewrite show_sq_section_eq, Htext.
  - exact Hsplit.
  - rewrite Hsplit. cbn [fst]. now rewrite length_map, zseq_length.
  - intros Heq. rewrite show_sq_section_eq, Htext. unfold sq_header.
    subst N. rewrite Heq, Z.sub_diag. reflexivity.
Qed.

(** *** Completion queue *)

Lemma cq_body_eq (ctx : io_ring_ctx) (r : io_rings) (cq_mask cq_head : Z)
    (m : seq_file) :
  cq_body K ctx r cq_mask cq_head m
  = (m ++ cq_entry_text K ctx r cq_mask cq_head,
     snd (cq_body K ctx r cq_mask cq_head "")).
Proof.
  unfold cq_entry_text, cq_body, seq_printf.
  destruct (is_cqe32 K ctx (cqes r (Z.land cq_head cq_mask))); cbn [fst snd];
    now rewrite !append_assoc.
Qed.

(** The sink after the scan is the sink before it followed by the texts
    of the visited entries. *)
Lemma cq_loop_visits (ctx : io_ring_ctx) (r : io_rings) (cq_mask cq_tail : Z)
    (fuel : nat) :
  forall cq_head m,
    cq_loop K ctx r cq_mask cq_tail fuel cq_head m
    = match cq_visits K ctx r cq_mask cq_tail fuel cq_head with
      | Some vs =>
          Done (m ++ cat (map (fun v => cq_entry_text K ctx r cq_mask (fst v)) vs))
      | None => OutOfFuel
      end.
Proof.
  induction fuel as [|fuel IH]; intros h m; cbn [cq_loop cq_visits].
  - destruct (h <? cq_tail); [reflexivity|]. simpl. now rewrite append_nil_r.
  - destruct (h <? cq_tail).
    + rewrite cq_body_eq, IH.
      destruct (cq_visits K ctx r cq_mask cq_tail fuel _); [|reflexivity].
      cbn [map cat fold_right fst]. now rewrite append_assoc.
    + simpl. now rewrite append_nil_r.
Qed.

Lemma cq_body_next (ctx : io_ring_ctx) (r : io_rings) (cq_mask cq_head : Z)
    (m : seq_file) :
  snd (cq_body K ctx r cq_mask cq_head m)
  = if is_cqe32 K ctx (cqes r (Z.land cq_head cq_mask))
    then u32 (u32 (cq_head + 1) + 1)
    else u32 (cq_head + 1).
Proof.
  unfold cq_body. destruct (is_cqe32 _ _ _); reflexivity.
Qed.

(** On a ring with the ring-wide 32-byte flag, an even head cursor never
    reaches or passes a tail of [2^32 - 1]: the scan does not end. *)
Lemma cq_loop_diverges (ctx : io_ring_ctx) (r : io_rings) (cq_mask : Z) (fuel : nat) :
  has_flag (flags ctx) (IORING_SETUP_CQE32 K) = true ->
  forall cq_head m,
    0 <= cq_head < U32_MOD ->
    Z.even cq_head = true ->
    cq_loop K ctx r cq_mask (U32_MOD - 1) fuel cq_head m = OutOfFuel.
Proof.
  intros H32. induction fuel as [|fuel IH]; intros h m Hr He.
  - cbn [cq_loop].
    assert (h <> U32_MOD - 1) by (intros ->; discriminate).
    destruct (h <? U32_MOD - 1) eqn:E; [reflexivity|]. apply Z.ltb_ge in E. lia.
  - cbn [cq_loop].
    assert (h <> U32_MOD - 1) by (intros ->; discriminate).
    destruct (h <? U32_MOD - 1) eqn:E; [|apply Z.ltb_ge in E; lia].
    rewrite cq_body_eq, cq_body_next.
    assert (H32' : is_cqe32 K ctx (cqes r (Z.land h cq_mask)) = true).
    { unfold is_cqe32. rewrite H32. apply orb_true_r. }
    rewrite H32'.
    assert (Hn : u32 (u32 (h + 1) + 1) = (h + 2) mod U32_MOD).
    { unfold u32. rewrite Zplus_mod_idemp_l. f_equal. lia. }
    rewrite Hn. apply IH.
    + apply Z.mod_pos_bound. reflexivity.
    + destruct (Z.eq_dec h (U32_MOD - 2)) as [->|Hne]; [reflexivity|].
      rewrite Z.mod_small by (apply Z.ltb_lt in E; lia).
      rewrite Z.even_add, He. reflexivity.
Qed.

(** When the cursors are in order and the tail is not the largest value,
    the scan ends, and it consumes the enqueued slots or one more. *)
Lemma cq_visits_in_order (ctx : io_ring_ctx) (r : io_rings) (cq_mask cq_tail : Z)
    (fuel : nat) :
  cq_tail < U32_MOD - 1 ->
  forall cq_head,
    0 <= cq_head ->
    cq_tail - cq_head <= Z.of_nat fuel ->
    exists vs,
      cq_visits K ctx r cq_mask cq_tail fuel cq_head = Some vs
      /\ (cq_tail <= cq_head -> vs = [])
      /\ (cq_head < cq_tail ->
          cq_tail - cq_head <= slots_consumed vs <= cq_tail - cq_head + 1).
Proof.
  intros Ht. induction fuel as [|fuel IH]; intros h Hh Hf; cbn [cq_visits].
  - destruct (h <? cq_tail) eqn:E; [apply Z.ltb_lt in E; lia|].
    apply Z.ltb_ge in E. exists []. repeat split; auto; lia.
  - destruct (h <? cq_tail) eqn:E.
    + apply Z.ltb_lt in E. rewrite cq_body_next.
      set (w := is_cqe32 K ctx (cqes r (Z.land h cq_mask))).
      assert (Hnext : (if w then u32 (u32 (h + 1) + 1) else u32 (h + 1))
                      = h + (if w then 2 else 1)).
      { destruct w; rewrite !u32_small; unfold U32_MOD in *; try lia.
        rewrite u32_small; unfold U32_MOD; lia. }
      rewrite Hnext.
      destruct (IH (h + (if w then 2 else 1))) as (vs & Hvs & Hnil & Hcons).
      * destruct w; lia.
      * destruct w; lia.
      * rewrite Hvs. exists ((h, w) :: vs). split; [reflexivity|].
        split; [lia|]. intros _. cbn [slots_consumed fold_right snd].
        fold (slots_consumed vs).
        destruct (Z_lt_ge_dec (h + (if w then 2 else 1)) cq_tail) as [Hlt|Hge].
        -- specialize (Hcons Hlt). destruct w; lia.
        -- rewrite (Hnil ltac:(lia)). cbn [slots_consumed fold_right].
           destruct w; lia.
    + apply Z.ltb_ge in E. exists []. repeat split; auto; lia.
Qed.

(** C10: an entry taken for a 32-byte one appends its line, ended by the
    newline of the extra-fields text, and then one more newline, that is
    an empty line; any other entry appends its line alone. *)
Theorem cq_entry_blank_line_after_cqe32 (ctx : io_ring_ctx) (r : io_rings)
    (cq_mask cq_head : Z) (m : seq_file) :
  let cqe := cqes r (Z.land cq_head cq_mask) in
  let line := cqe_text (Z.land cq_head cq_mask) cqe in
  fst (cq_body K ctx r cq_mask cq_head m)
  = m ++ cq_entry_text K ctx r cq_mask cq_head
  /\ if is_cqe32 K ctx cqe
     then cq_entry_text K ctx r cq_mask cq_head
          = line ++ (cqe_extra_text cqe ++ LF) ++ LF
          /\ split_lines (cq_entry_text K ctx r cq_mask cq_head)
             = ([line ++ cqe_extra_text cqe; ""], "")
     else cq_entry_text K ctx r cq_mask cq_head = line ++ LF
          /\ split_lines (cq_entry_text K ctx r cq_mask cq_head) = ([line], "").
Proof.
  intros cqe line. split; [now rewrite cq_body_eq|].
  assert (Hline : count_nl line = 0%nat).
  { unfold line, cqe_text. nl_count. }
  assert (Hextra : count_nl (cqe_extra_text cqe) = 0%nat).
  { unfold cqe_extra_text. nl_count. }
  unfold cq_entry_text, cq_body, seq_printf. fold cqe. fold line.
  destruct (is_cqe32 K ctx cqe); cbn [fst]; cbn [String.append].
  - split; [now rewrite !append_assoc|].
    replace (line ++ cqe_extra_text cqe ++ LF)
      with ((line ++ cqe_extra_text cqe) ++ LF) by now rewrite append_assoc.
    rewrite (append_assoc (line ++ cqe_extra_text cqe)).
    rewrite split_lines_cons by (rewrite count_nl_app; lia).
    reflexivity.
  - split; [reflexivity|]. now apply split_lines_one.
Qed.

(** *** Registered files and buffers *)

Lemma user_buf_text_eq (ctx : io_ring_ctx) (i : Z) :
  user_buf_text ctx i = user_buf_line ctx i ++ LF.
Proof.
  unfold user_buf_text, user_buf_line.
  destruct (buf_of_slot ctx i); now rewrite !append_assoc.
Qed.

Lemma count_nl_user_buf_line (ctx : io_ring_ctx) (i : Z) :
  count_nl (user_buf_line ctx i) = 0%nat.
Proof. unfold user_buf_line. destruct (buf_of_slot ctx i); nl_count. Qed.

Lemma user_file_body_eq (ctx : io_ring_ctx) (i : Z) (m : seq_file) :
  user_file_body K ctx i m = m ++ user_file_text K ctx i.
Proof.
  unfold user_file_body, user_file_text, user_file_line, file_occupied,
    seq_printf, seq_puts.
  destruct (file_of_slot ctx i).
  - now rewrite !append_assoc.
  - now rewrite append_nil_r.
Qed.

Lemma cat_occupied (ctx : io_ring_ctx) (l : list Z) :
  cat (map (user_file_text K ctx) l)
  = cat (map (fun i => user_file_line K (file_of_slot ctx) i ++ LF)
             (filter (file_occupied ctx) l)).
Proof.
  induction l as [|i l IH]; [reflexivity|].
  cbn [map cat fold_right filter]. fold (cat (map (user_file_text K ctx) l)).
  rewrite IH. unfold user_file_text at 1.
  destruct (file_occupied ctx i); reflexivity.
Qed.

Lemma filter_partition_length {A} (f : A -> bool) (l : list A) :
  List.length (filter (fun x => negb (f x)) l)
  = (List.length l - List.length (filter f l))%nat.
Proof.
  induction l as [|x l IH]; [reflexivity|].
  pose proof (filter_length_le f l).
  cbn [filter]. destruct (f x); cbn [negb List.length]; lia.
Qed.

(** C8: the buffer section has one line for each of the [K] slots, with
    address and length for an occupied slot and [<none>] for an empty one,
    hence [K - M] placeholders; the file section has one line for each of
    the [M] occupied slots and nothing for an empty one. *)
Theorem table_sections_lines (ctx : io_ring_ctx) (m : seq_file) :
  paths_one_line K ->
  let buf_slots := zseq (Z.to_nat (buf_nr (buf_table ctx))) in
  let file_slots := zseq (Z.to_nat (file_nr (file_table ctx))) in
  (show_user_bufs ctx m
   = m ++ ("UserBufs:" ++ TAB ++ fmt_u (buf_nr (buf_table ctx)) ++ LF)
       ++ user_bufs_text ctx
   /\ split_lines (user_bufs_text ctx) = (map (user_buf_line ctx) buf_slots, "")
   /\ List.length (fst (split_lines (user_bufs_text ctx)))
      = Z.to_nat (buf_nr (buf_table ctx))
   /\ List.length (filter (fun i => negb (buf_occupied ctx i)) buf_slots)
      = (Z.to_nat (buf_nr (buf_table ctx))
         - List.length (filter (buf_occupied ctx) buf_slots))%nat)
  /\ (show_user_files K ctx m
      = m ++ ("UserFiles:" ++ TAB ++ fmt_u (file_nr (file_table ctx)) ++ LF)
          ++ user_files_text K ctx
      /\ split_lines (user_files_text K ctx)
         = (map (user_file_line K (file_of_slot ctx))
                (filter (file_occupied ctx) file_slots), "")
      /\ List.length (fst (split_lines (user_files_text K ctx)))
         = List.length (filter (file_occupied ctx) file_slots)).
Proof.
  intros Hp buf_slots file_slots.
  assert (Hb : split_lines (user_bufs_text ctx)
               = (map (user_buf_line ctx) buf_slots, "")).
  { unfold user_bufs_text.
    rewrite for_upto_cat with (text := fun i => user_buf_line ctx i ++ LF)
      by (intros; unfold user_buf_body, seq_printf; now rewrite user_buf_text_eq).
    rewrite map_add_0. fold buf_slots.
    rewrite <- (map_map (user_buf_line ctx) (fun l => l ++ LF)).
    apply split_lines_cat. apply Forall_forall. intros l Hl.
    apply in_map_iff in Hl. destruct Hl as [j [<- _]].
    apply count_nl_user_buf_line. }
  assert (Hf : split_lines (user_files_text K ctx)
               = (map (user_file_line K (file_of_slot ctx))
                      (filter (file_occupied ctx) file_slots), "")).
  { unfold user_files_text.
    rewrite for_upto_cat with (text := user_file_text K ctx)
      by (intros; apply user_file_body_eq).
    rewrite map_add_0. fold file_slots. rewrite cat_occupied.
    rewrite <- (map_map (user_file_line K (file_of_slot ctx)) (fun l => l ++ LF)).
    apply split_lines_cat. apply Forall_forall. intros l Hl.
    apply in_map_iff in Hl. destruct Hl as [j [<- Hj]].
    apply filter_In in Hj. destruct Hj as [_ Hocc].
    unfold user_file_line, file_occupied in *.
    destruct (file_of_slot ctx j); [|discriminate].
    rewrite !count_nl_app, Hp. nl_count. }
  split; [split; [|split; [|split]] | split; [|split]].
  - unfold show_user_bufs, user_bufs_text, seq_printf.
    rewrite for_upto_frame
      by reflexivity.
    now rewrite !append_assoc.
  - exact Hb.
  - rewrite Hb. cbn [fst]. unfold buf_slots. now rewrite length_map, zseq_length.
  - rewrite filter_partition_length. unfold buf_slots. now rewrite zseq_length.
  - unfold show_user_files, user_files_text, seq_printf.
    rewrite for_upto_frame
      by (intros; now rewrite !user_file_body_eq).
    now rewrite !append_assoc.
  - exact Hf.
  - rewrite Hf. cbn [fst]. now rewrite length_map.
Qed.

(** *** The lock of the reporter *)

(** X1: when the ring lock is held, by another task or by the caller
    itself, the reporter returns at once for any budget: the sink is the
    one it was given, the owner of the lock is unchanged, and the single
    synchronisation step is the failed trylock. *)
Lemma io_uring_show_fdinfo_contended (fuel : nat) (me owner : Z)
    (ctx : io_ring_ctx) (m : seq_file) (s : sys) :
  uring_lock s = Some owner ->
  io_uring_show_fdinfo K fuel me ctx m s
  = Done (m, {| uring_lock := Some owner;
                sync := (sync s ++ [TryLockUring false])%list;
                dmesg := dmesg s |}).
Proof.
  intros Hl. unfold io_uring_show_fdinfo, bind, mutex_trylock, ret.
  rewrite Hl. reflexivity.
Qed.

(** Free lock: the lock is taken, the body runs, and when the body returns
    the lock is released. *)
Lemma io_uring_show_fdinfo_acquired (fuel : nat) (me : Z)
    (ctx : io_ring_ctx) (m : seq_file) (s : sys) :
  uring_lock s = None ->
  io_uring_show_fdinfo K fuel me ctx m s
  = match __io_uring_show_fdinfo K fuel ctx m
            {| uring_lock := Some me;
               sync := (sync s ++ [TryLockUring true])%list;
               dmesg := dmesg s |} with
    | Done (m', s') => Done (m', {| uring_lock := None;
                                    sync := (sync s' ++ [UnlockUring])%list;
                                    dmesg := dmesg s' |})
    | Fault f => Fault f
    | OutOfFuel => OutOfFuel
    end.
Proof.
  intros Hl. unfold io_uring_show_fdinfo, bind, mutex_trylock, mutex_unlock, ret.
  rewrite Hl.
  destruct (__io_uring_show_fdinfo K fuel ctx m _) as [[m' s']| |]; reflexivity.
Qed.

(** The body never returns when the completion scan does not end. *)
Lemma show_fdinfo_body_hangs (fuel : nat) (ctx : io_ring_ctx) (r : io_rings)
    (m : seq_file) (s : sys) :
  rings ctx = Some r ->
  has_flag (flags ctx) (IORING_SETUP_CQE32 K) = true ->
  cq_tail r = U32_MOD - 1 ->
  0 <= cq_head r < U32_MOD ->
  Z.even (cq_head r) = true ->
  __io_uring_show_fdinfo K fuel ctx m s = OutOfFuel.
Proof.
  intros Hr H32 Ht Hh He.
  unfold __io_uring_show_fdinfo, bind at 1. unfold lift at 1.
  rewrite Hr. cbn [deref]. unfold bind at 1. unfold lift at 1.
  unfold show_cq_section. rewrite Ht.
  now rewrite cq_loop_diverges.
Qed.

Lemma io_uring_show_fdinfo_hangs (fuel : nat) (me : Z) (ctx : io_ring_ctx)
    (r : io_rings) (m : seq_file) (s : sys) :
  uring_lock s = None ->
  rings ctx = Some r ->
  has_flag (flags ctx) (IORING_SETUP_CQE32 K) = true ->
  cq_tail r = U32_MOD - 1 ->
  0 <= cq_head r < U32_MOD ->
  Z.even (cq_head r) = true ->
  io_uring_show_fdinfo K fuel me ctx m s = OutOfFuel.
Proof.
  intros Hl Hr H32 Ht Hh He.
  rewrite io_uring_show_fdinfo_acquired by assumption.
  now rewrite (show_fdinfo_body_hangs fuel ctx m _ Hr H32 Ht Hh He).
Qed.

Lemma sys_eta (s : sys) :
  {| uring_lock := uring_lock s; sync := (sync s ++ [])%list; dmesg := dmesg s |} = s.
Proof. destruct s; cbn. now rewrite app_nil_r. Qed.

Lemma read_sqpoll_effect (ctx : io_ring_ctx) (s : sys) :
  (has_flag (flags ctx) (IORING_SETUP_SQPOLL K) = true -> sq_data ctx <> None) ->
  exists st ops,
    read_sqpoll K ctx s
    = Done (st, {| uring_lock := uring_lock s;
                   sync := (sync s ++ ops)%list;
                   dmesg := dmesg s |})
    /\ forallb (fun op => negb (on_uring_lock op)) ops = true.
Proof.
  intros Hsq. unfold read_sqpoll.
  destruct (has_flag (flags ctx) (IORING_SETUP_SQPOLL K)) eqn:E.
  - specialize (Hsq eq_refl). destruct (sq_data ctx) as [sq|]; [|congruence].
    unfold bind, lift, deref, rcu_read_lock, rcu_read_unlock, log_sync, ret.
    destruct (thread sq); cbn; rewrite <- app_assoc;
      eexists; exists [RcuReadLock; RcuReadUnlock]; split; reflexivity.
  - unfold ret. eexists; exists []. rewrite sys_eta. split; reflexivity.
Qed.

Lemma show_poll_bucket_returns (reqs : list io_kiocb) :
  (forall req, In req reqs -> tctx req <> None) ->
  forall m, exists m', show_poll_bucket reqs m = Done m'.
Proof.
  induction reqs as [|req rest IH]; intros Hp m; cbn [show_poll_bucket].
  - now exists m.
  - destruct (tctx req) eqn:E; [|exfalso; apply (Hp req); [now left | assumption]].
    cbn [deref]. apply IH. intros q Hq. apply Hp. now right.
Qed.

Lemma show_poll_list_returns (ctx : io_ring_ctx) (m : seq_file) :
  poll_tasks_present ctx ->
  exists m', show_poll_list ctx m = Done m'.
Proof.
  intros Hp. unfold show_poll_list.
  generalize (seq_puts m ("PollList:" ++ LF)) as m0.
  generalize 0 as i.
  induction (Z.to_nat (nr_buckets ctx)) as [|n IH]; intros i m0;
    cbn [show_poll_buckets].
  - now exists m0.
  - destruct (show_poll_bucket_returns (hbs (cancel_table ctx) i) (Hp i) m0)
      as [m1 ->].
    apply IH.
Qed.

(** When the completion cursors are in order, the poll thread data is
    there when the ring polls, and the requests have their task context,
    the reporter returns for a large enough budget: it has taken the lock
    by one trylock and released it, and touched the ring lock in no other
    way. *)
Lemma io_uring_show_fdinfo_returns (me : Z) (ctx : io_ring_ctx) (r : io_rings)
    (m : seq_file) (s : sys) :
  uring_lock s = None ->
  rings ctx = Some r ->
  0 <= cq_head r ->
  cq_tail r < U32_MOD - 1 ->
  (has_flag (flags ctx) (IORING_SETUP_SQPOLL K) = true -> sq_data ctx <> None) ->
  poll_tasks_present ctx ->
  exists m' ops,
    io_uring_show_fdinfo K (Z.to_nat (cq_tail r - cq_head r)) me ctx m s
    = Done (m', {| uring_lock := None;
                   sync := (sync s ++ [TryLockUring true] ++ ops ++ [UnlockUring])%list;
                   dmesg := dmesg s |})
    /\ forallb (fun op => negb (on_uring_lock op)) ops = true.
Proof.
  intros Hl Hr Hh Ht Hsq Hp.
  rewrite io_uring_show_fdinfo_acquired by assumption.
  unfold __io_uring_show_fdinfo, bind at 1. unfold lift at 1.
  rewrite Hr. cbn [deref]. unfold bind at 1. unfold lift at 1.
  unfold show_cq_section. rewrite cq_loop_visits.
  destruct (@cq_visits_in_order ctx r (cq_mask_of ctx) (cq_tail r)
              (Z.to_nat (cq_tail r - cq_head r)) Ht (cq_head r) Hh ltac:(lia))
    as (vs & -> & _).
  unfold bind at 1.
  match goal with
  | |- context [read_sqpoll K ctx ?s0] =>
      destruct (read_sqpoll_effect ctx s0 Hsq) as (st & ops1 & -> & Hops1)
  end.
  unfold bind at 1. unfold lift at 1.
  match goal with
  | |- context [show_poll_list ctx ?m0] =>
      destruct (show_poll_list_returns m0 Hp) as (m1 & ->)
  end.
  unfold bind at 1, show_overflow, bind, spin_lock, spin_unlock, log_sync, ret.
  cbn [uring_lock sync dmesg].
  eexists. exists (ops1 ++ [LockCompletion; UnlockCompletion])%list. split.
  - do 2 f_equal. f_equal. rewrite <- !app_assoc. reflexivity.
  - rewrite forallb_app, Hops1. reflexivity.
Qed.

(** *** The dumper *)

Lemma logs_ret : logs_with (ret tt) [].
Proof.
  intros s. exists "". unfold ret. rewrite append_nil_r, app_nil_r.
  destruct s; reflexivity.
Qed.

Lemma logs_pr_warn (text : string) : logs_with (pr_warn text) [].
Proof. intros s. exists text. unfold pr_warn. now rewrite app_nil_r. Qed.

Lemma logs_sync (op : sync_op) : logs_with (log_sync op) [op].
Proof. intros s. exists "". unfold log_sync. now rewrite append_nil_r. Qed.

Lemma logs_bind (c k : M unit) (ops1 ops2 : list sync_op) :
  logs_with c ops1 -> logs_with k ops2 ->
  logs_with (c ;;; k) (ops1 ++ ops2)%list.
Proof.
  intros Hc Hk s. unfold bind.
  destruct (Hc s) as [t1 ->].
  destruct (Hk {| uring_lock := uring_lock s; sync := (sync s ++ ops1)%list;
                  dmesg := dmesg s ++ t1 |}) as [t2 ->].
  cbn [uring_lock sync dmesg]. exists (t1 ++ t2).
  now rewrite app_assoc, append_assoc.
Qed.

Lemma logs_bind_quiet (c k : M unit) (ops : list sync_op) :
  logs_with c [] -> logs_with k ops -> logs_with (c ;;; k) ops.
Proof. intros Hc Hk. apply (logs_bind Hc Hk). Qed.

Lemma logs_for_each {A} (l : list A) (body : A -> M unit) :
  (forall x, logs_with (body x) []) -> logs_with (for_each l body) [].
Proof.
  intros Hb. induction l as [|x l IH]; cbn [for_each].
  - apply logs_ret.
  - apply logs_bind_quiet; auto.
Qed.

Lemma logs_dump_req (prefix : string) (req : io_kiocb) :
  logs_with (io_uring_dump_req K prefix req) [].
Proof. apply logs_pr_warn. Qed.

Lemma logs_dump_llist (name : string) (l : list io_kiocb) :
  logs_with (io_uring_dump_llist K name l) [].
Proof.
  unfold io_uring_dump_llist. destruct l; [apply logs_ret|].
  apply logs_bind_quiet; [apply logs_pr_warn|].
  apply logs_for_each. intros; apply logs_dump_req.
Qed.

Lemma logs_dump_task_works (t : task_struct) :
  logs_with (io_uring_dump_task_works K t) [].
Proof. apply logs_for_each. intros; apply logs_pr_warn. Qed.

Lemma logs_dump_poll_req (req : io_kiocb) : logs_with (dump_poll_req K req) [].
Proof.
  unfold dump_poll_req. apply logs_bind_quiet; [apply logs_dump_req|].
  destruct (tctx req) as [t|]; [|apply logs_ret].
  destruct (task_work_pending (task t)); [apply logs_dump_task_works | apply logs_ret].
Qed.

Lemma logs_dump_poll_buckets (ctx : io_ring_ctx) (n : nat) :
  forall i, logs_with (dump_poll_buckets K ctx n i) [].
Proof.
  induction n as [|n IH]; intros i; cbn [dump_poll_buckets].
  - apply logs_ret.
  - apply logs_bind_quiet; [|apply IH].
    apply logs_for_each. intros; apply logs_dump_poll_req.
Qed.

Lemma lockdep_assert_bind (me : Z) (k : M unit) (s : sys) :
  (lockdep_assert_held me ;;; k) s
  = match uring_lock s with
    | Some owner => if owner =? me then k s else Fault LockdepAssert
    | None => Fault LockdepAssert
    end.
Proof.
  unfold bind, lockdep_assert_held.
  destruct (uring_lock s) as [owner|]; [|reflexivity].
  destruct (owner =? me); reflexivity.
Qed.

(** C6: the dumper takes no step on the ring lock.  Called by a task that
    holds it, it returns with the same owner, having taken and released
    only the completion lock; called otherwise, it stops at the assertion
    and does not return. *)
Theorem dump_reqs_requires_uring_lock (me : Z) (ctx : io_ring_ctx)
    (prefix : string) (s : sys) :
  match uring_lock s with
  | Some owner =>
      if owner =? me
      then exists text,
          io_uring_dump_reqs K me ctx prefix s
          = Done (tt, {| uring_lock := Some owner;
                         sync := (sync s ++ [LockCompletion; UnlockCompletion])%list;
                         dmesg := dmesg s ++ text |})
      else io_uring_dump_reqs K me ctx prefix s = Fault LockdepAssert
  | None => io_uring_dump_reqs K me ctx prefix s = Fault LockdepAssert
  end.
Proof.
  unfold io_uring_dump_reqs. rewrite lockdep_assert_bind.
  destruct (uring_lock s) as [owner|] eqn:El; [|reflexivity].
  destruct (owner =? me); [|reflexivity].
  rewrite <- El.
  match goal with
  | |- exists text, ?k s = _ =>
      assert (Hk : logs_with k [LockCompletion; UnlockCompletion])
  end.
  { apply logs_bind_quiet; [apply logs_pr_warn|].
    apply logs_bind_quiet.
    { destruct (rings ctx); [|apply logs_ret].
      apply logs_bind_quiet; apply logs_pr_warn. }
    do 3 (apply logs_bind_quiet; [apply logs_pr_warn|]).
    apply logs_bind_quiet; [apply logs_dump_poll_buckets|].
    do 3 (apply logs_bind_quiet; [apply logs_dump_llist|]).
    apply logs_bind_quiet.
    { destruct (defer_list ctx) eqn:Ed; [apply logs_ret|].
      apply logs_bind_quiet; [apply logs_pr_warn|].
      apply logs_for_each. intros; apply logs_dump_req. }
    apply (logs_bind (ops1 := [LockCompletion]) (ops2 := [UnlockCompletion]));
      [apply logs_sync|].
    cbv zeta.
    replace [UnlockCompletion] with ([UnlockCompletion] ++ [])%list by reflexivity.
    apply logs_bind; [apply logs_sync|].
    destruct (negb _); [apply logs_pr_warn | apply logs_ret]. }
  apply Hk.
Qed.

End Properties.

(** ** The statements on the sample rings *)

Lemma sample_names_one_line : names_one_line sample_env.
Proof.
  intros op. cbn. destruct (op =? 0); [reflexivity|].
  destruct (op =? 64); reflexivity.
Qed.

Lemma sample_paths_one_line : paths_one_line sample_env.
Proof. intros f. reflexivity. Qed.

(** C1: with the ring lock free, one completion pending at cursor
    [2^32 - 2] and the ring-wide 32-byte flag, the trylock succeeds and the
    call is still in the completion scan after any number of iterations:
    it does not return and the lock stays taken. *)
Theorem show_fdinfo_never_returns_at_cursor_edge (fuel : nat) (me : Z)
    (m : seq_file) :
  mutex_trylock me (sample_sys None)
  = Done (true, {| uring_lock := Some me; sync := [TryLockUring true]; dmesg := "" |})
  /\ io_uring_show_fdinfo sample_env fuel me edge_ctx m (sample_sys None) = OutOfFuel.
Proof.
  split; [reflexivity|].
  apply io_uring_show_fdinfo_hangs with (r := edge_rings); try reflexivity.
  split; [discriminate | reflexivity].
Qed.

(** C4: with [cq_head = 2^32 - 1] and [cq_tail = 0] one completion is
    enqueued and the count line says so, but the scan visits no entry and
    consumes no slot. *)
Theorem cq_scan_skips_wrapped_window :
  u32 (cq_tail wrapped_rings - cq_head wrapped_rings) = 1
  /\ (forall fuel m,
        show_cq_section sample_env wrapped_ctx wrapped_rings fuel m
        = Done (m ++ "CQEs:" ++ TAB ++ "1" ++ LF))
  /\ (forall fuel,
        cq_visits sample_env wrapped_ctx wrapped_rings (cq_mask_of wrapped_ctx)
                  (cq_tail wrapped_rings) fuel (cq_head wrapped_rings) = Some [])
  /\ ~ consumes_enqueued_cqes sample_env wrapped_ctx wrapped_rings.
Proof.
  assert (Hv : forall fuel,
             cq_visits sample_env wrapped_ctx wrapped_rings (cq_mask_of wrapped_ctx)
               (cq_tail wrapped_rings) fuel (cq_head wrapped_rings) = Some []).
  { intros fuel. destruct fuel; reflexivity. }
  split; [reflexivity|]. split; [|split].
  - intros fuel m. unfold show_cq_section. rewrite cq_loop_visits, Hv.
    unfold seq_printf. cbn [map cat fold_right]. now rewrite append_nil_r.
  - exact Hv.
  - intros (fuel & vs & Hvs & Hs). rewrite Hv in Hvs.
    injection Hvs as <-. discriminate Hs.
Qed.

(** A 32-byte entry that starts one slot before the tail takes the scan
    one slot past it. *)
Lemma cq_scan_overshoots_tail :
  cq_visits sample_env odd_ctx odd_rings (cq_mask_of odd_ctx)
            (cq_tail odd_rings) 1 (cq_head odd_rings) = Some [(0, true)]
  /\ slots_consumed [(0, true)] = 2
  /\ u32 (cq_tail odd_rings - cq_head odd_rings) = 1.
Proof. repeat split. Qed.

(** C7, as stated, fails: one enqueued entry with an opcode out of range
    gives no entry line. *)
Lemma sq_section_skips_enqueued_entry :
  ~ one_line_per_enqueued_sqe sample_env unknown_op_ctx unknown_op_rings.
Proof.
  unfold one_line_per_enqueued_sqe. intros H.
  assert (Hcap : u32 (sq_tail unknown_op_rings - sq_head unknown_op_rings)
                 <= sq_entries unknown_op_ctx) by (vm_compute; discriminate).
  specialize (H Hcap). vm_compute in H. discriminate H.
Qed.

Lemma sq_scan_invalid_wide_entry_witness :
  sq_loop sample_env (wide_op_ctx 0 0) (sq_mask_of (wide_op_ctx 0 0))
          (sq_shift_of sample_env (wide_op_ctx 0 0)) 1 0 0 ""
  = "" ++ invalid_sqe_text 0
  /\ split_lines (invalid_sqe_text 0)
     = ([fmt_5u 0 ++ ": invalid sqe, 128B entry on non-mixed sq"], "").
Proof.
  apply (@sq_scan_invalid_wide_entry sample_env (wide_op_ctx 0 0) 0 0 0 "").
  - reflexivity.
  - reflexivity.
  - vm_compute; discriminate.
  - vm_compute; reflexivity.
  - reflexivity.
Defined.

Lemma sq_scan_skips_unknown_opcode_witness :
  sq_body sample_env unknown_op_ctx (sq_mask_of unknown_op_ctx)
          (sq_shift_of sample_env unknown_op_ctx) 0 0 "" = Next 0 ""
  /\ sq_loop sample_env unknown_op_ctx (sq_mask_of unknown_op_ctx)
             (sq_shift_of sample_env unknown_op_ctx) 1 0 0 ""
     = sq_loop sample_env unknown_op_ctx (sq_mask_of unknown_op_ctx)
               (sq_shift_of sample_env unknown_op_ctx) 0 (0 + 1) 0 "".
Proof.
  apply (@sq_scan_skips_unknown_opcode sample_env unknown_op_ctx 0 0 0 "").
  vm_compute; discriminate.
Defined.

Lemma sq_scan_wrapping_wide_entry_witness :
  sq_loop sample_env (wide_op_ctx 524288 7) (sq_mask_of (wide_op_ctx 524288 7))
          (sq_shift_of sample_env (wide_op_ctx 524288 7)) 1 0 7 ""
  = "" ++ corrupted_sqe_text 7
  /\ split_lines (corrupted_sqe_text 7)
     = ([fmt_5u 7 ++ ": corrupted sqe, wrapping 128B entry"], "").
Proof.
  apply (@sq_scan_wrapping_wide_entry sample_env (wide_op_ctx 524288 7) 0 0 7 "").
  - reflexivity.
  - reflexivity.
  - vm_compute; discriminate.
  - vm_compute; reflexivity.
  - reflexivity.
  - reflexivity.
Defined.

Lemma sq_scan_bounded_by_capacity_witness :
  show_sq_section sample_env overfull_ctx overfull_rings ""
  = "" ++ sq_header overfull_rings
       ++ sq_entry_text sample_env overfull_ctx overfull_rings
  /\ sq_scan_count overfull_ctx overfull_rings <= sq_entries overfull_ctx
  /\ Z.of_nat (count_nl (sq_entry_text sample_env overfull_ctx overfull_rings))
     <= sq_scan_count overfull_ctx overfull_rings.
Proof.
  apply (@sq_scan_bounded_by_capacity sample_env overfull_ctx overfull_rings "").
  - exact sample_names_one_line.
  - vm_compute; discriminate.
Defined.

Lemma sq_section_lines_of_plain_entries_witness :
  show_sq_section sample_env two_nop_ctx two_nop_rings ""
  = "" ++ sq_header two_nop_rings
       ++ cat (map (fun i => sq_line_at sample_env two_nop_ctx 0 i ++ LF) (zseq 2))
  /\ split_lines (sq_entry_text sample_env two_nop_ctx two_nop_rings)
     = (map (sq_line_at sample_env two_nop_ctx 0) (zseq 2), "")
  /\ List.length (fst (split_lines (sq_entry_text sample_env two_nop_ctx two_nop_rings)))
     = 2%nat
  /\ (sq_head two_nop_rings = sq_tail two_nop_rings ->
      show_sq_section sample_env two_nop_ctx two_nop_rings ""
      = "" ++ "SQEs:" ++ TAB ++ "0" ++ LF).
Proof.
  apply (@sq_section_lines_of_plain_entries sample_env two_nop_ctx two_nop_rings "").
  - exact sample_names_one_line.
  - vm_compute; discriminate.
  - intros i Hi.
    assert (Hi' : i = 0 \/ i = 1).
    { change (u32 (sq_tail two_nop_rings - sq_head two_nop_rings)) with 2 in Hi. lia. }
    destruct Hi' as [-> | ->]; repeat split;
      solve [vm_compute; discriminate | vm_compute; reflexivity].
Defined.

Lemma table_sections_lines_witness :
  split_lines (user_bufs_text two_nop_ctx)
  = ([fmt_5u 0 ++ ": 0x10000/4096"; fmt_5u 1 ++ ": <none>"], "")
  /\ split_lines (user_files_text sample_env two_nop_ctx)
     = ([fmt_5u 0 ++ ": /dev/null"; fmt_5u 2 ++ ": /dev/null"], "").
Proof.
  destruct (@table_sections_lines sample_env two_nop_ctx "" sample_paths_one_line)
    as [(_ & Hb & _) (_ & Hf & _)].
  split; [rewrite Hb | rewrite Hf]; reflexivity.
Defined.

(** ** Runs on the sample rings *)

Example sq_section_two_nops :
  show_sq_section sample_env two_nop_ctx two_nop_rings ""
  = "SQEs:" ++ TAB ++ "2" ++ LF
    ++ "    0: opcode:NOP, fd:3, flags:0, off:0, addr:0x0, rw_flags:0x0, buf_index:0 user_data:42" ++ LF
    ++ "    1: opcode:NOP, fd:3, flags:0, off:0, addr:0x0, rw_flags:0x0, buf_index:0 user_data:42" ++ LF.
Proof. reflexivity. Qed.

Example sq_section_wide_on_plain_ring :
  show_sq_section sample_env (wide_op_ctx 0 0) (sample_rings 0 3 0 0 0) ""
  = "SQEs:" ++ TAB ++ "3" ++ LF
    ++ "    0: invalid sqe, 128B entry on non-mixed sq" ++ LF.
Proof. reflexivity. Qed.

Example cq_section_flagged_entries :
  show_cq_section sample_env (sample_ctx 0 (sample_rings 0 0 0 4 32768) 0)
                  (sample_rings 0 0 0 4 32768) 2 ""
  = Done ("CQEs:" ++ TAB ++ "4" ++ LF
          ++ "    0: user_data:7, res:0, flags:8000, extra1:1, extra2:2" ++ LF ++ LF
          ++ "    2: user_data:7, res:0, flags:8000, extra1:1, extra2:2" ++ LF ++ LF).
Proof. reflexivity. Qed.

Example show_fdinfo_contended_sample :
  io_uring_show_fdinfo sample_env 0 1 two_nop_ctx "" (sample_sys (Some 5))
  = Done ("", {| uring_lock := Some 5; sync := [TryLockUring false]; dmesg := "" |}).
Proof. reflexivity. Qed.

Example show_fdinfo_free_sample :
  exists text,
    io_uring_show_fdinfo sample_env 0 1 two_nop_ctx "" (sample_sys None)
    = Done (text, {| uring_lock := None;
                     sync := [TryLockUring true; LockCompletion; UnlockCompletion;
                              UnlockUring];
                     dmesg := "" |})
    /\ count_nl text = 24%nat.
Proof. eexists. split; reflexivity. Qed.

Example dump_reqs_without_lock_sample :
  io_uring_dump_reqs sample_env 1 two_nop_ctx "stuck" (sample_sys (Some 2))
  = Fault LockdepAssert
  /\ io_uring_dump_reqs sample_env 1 two_nop_ctx "stuck" (sample_sys None)
     = Fault LockdepAssert.
Proof. split; reflexivity. Qed.

(** ** Further properties of the reporter *)

Lemma land_le_r (a b : Z) : 0 <= a -> 0 <= b -> Z.land a b <= b.
Proof.
  intros Ha Hb.
  assert (Hd : Z.land (Z.ldiff b a) (Z.land b a) = 0).
  { rewrite (Z.land_comm b a), Z.land_assoc, Z.land_ldiff. apply Z.land_0_l. }
  pose proof (Z.add_nocarry_lxor _ _ Hd) as Hadd.
  rewrite (Z.lxor_lor _ _ Hd), Z.lor_ldiff_and in Hadd.
  assert (0 <= Z.ldiff b a) by (apply Z.ldiff_nonneg; now left).
  rewrite (Z.land_comm a b). lia.
Qed.

Lemma zseq_S (n : nat) : zseq (S n) = 0 :: map (Z.add 1) (zseq n).
Proof.
  unfold zseq. cbn [seq map]. f_equal.
  rewrite <- seq_shift, !map_map. apply map_ext. intros a. lia.
Qed.

Lemma map_add_add (i : Z) (l : list Z) :
  map (Z.add i) (map (Z.add 1) l) = map (Z.add (i + 1)) l.
Proof. rewrite map_map. apply map_ext. intros a. lia. Qed.

Lemma cat_app (a b : list string) : cat (a ++ b)%list = cat a ++ cat b.
Proof.
  induction a as [|x a IH]; [reflexivity|].
  cbn [app cat fold_right]. fold (cat (a ++ b)%list). fold (cat a).
  now rewrite IH, append_assoc.
Qed.

Section MoreProperties.

Variable K : kernel_env.

(** *** Submission queue *)

(** X3: on a ring without SQ array the index of an entry is its cursor
    under the mask, which lies within the mask: the index guard drops no
    entry, and an entry passes the guards exactly when its opcode is known. *)
Theorem sq_index_within_mask_without_sq_array (ctx : io_ring_ctx) (i sq_head : Z) :
  has_flag (flags ctx) (IORING_SETUP_NO_SQARRAY K) = true ->
  0 <= sq_index K ctx (sq_mask_of ctx) i sq_head <= sq_mask_of ctx
  /\ sq_passes K ctx sq_head i = (sq_opcode K ctx i sq_head <? IORING_OP_LAST K).
Proof.
  intros Hf.
  assert (Hr : 0 <= sq_index K ctx (sq_mask_of ctx) i sq_head <= sq_mask_of ctx).
  { unfold sq_index. rewrite Hf.
    pose proof (u32_range (i + sq_head)) as He.
    pose proof (u32_range (sq_entries ctx - 1)) as Hm. fold (sq_mask_of ctx) in Hm.
    split.
    - apply Z.land_nonneg. left. lia.
    - apply land_le_r; lia. }
  split; [exact Hr|].
  unfold sq_passes. destruct (_ <=? _) eqn:E; [reflexivity|].
  apply Z.leb_gt in E. lia.
Qed.

Lemma sq_body_guarded (ctx : io_ring_ctx) (i sq_head : Z) (m : seq_file) :
  (sq_passes K ctx sq_head i = true -> sq_shift_of K ctx = 0 ->
   is_128 K (sq_opcode K ctx i sq_head) = false) ->
  sq_body K ctx (sq_mask_of ctx) (sq_shift_of K ctx) i sq_head m
  = Next sq_head (m ++ sq_entry_or_skip K ctx sq_head i).
Proof.
  intros Hw. unfold sq_entry_or_skip. unfold sq_passes in *.
  destruct (_ <=? _) eqn:E1.
  - destruct (_ <? _) eqn:E2; cbn [andb] in *.
    + apply sq_body_plain. apply Z.leb_le in E1. apply Z.ltb_lt in E2.
      repeat split; auto.
    + rewrite append_nil_r. unfold sq_body. unfold sq_opcode, sq_slot in E2.
      apply Z.leb_le in E1. apply Z.ltb_ge in E2.
      destruct (sq_mask_of ctx <? _) eqn:E3; [reflexivity|].
      destruct (IORING_OP_LAST K <=? _) eqn:E4; [reflexivity|].
      apply Z.leb_gt in E4. lia.
  - cbn [andb]. rewrite append_nil_r. unfold sq_body. apply Z.leb_gt in E1.
    destruct (sq_mask_of ctx <? _) eqn:E3; [reflexivity|].
    apply Z.ltb_ge in E3. lia.
Qed.

Lemma sq_loop_guarded (ctx : io_ring_ctx) (sq_head : Z) (n : nat) :
  forall i,
    (forall j, i <= j < i + Z.of_nat n ->
       sq_passes K ctx sq_head j = true -> sq_shift_of K ctx = 0 ->
       is_128 K (sq_opcode K ctx j sq_head) = false) ->
    sq_loop K ctx (sq_mask_of ctx) (sq_shift_of K ctx) n i sq_head ""
    = cat (map (sq_entry_or_skip K ctx sq_head) (map (Z.add i) (zseq n))).
Proof.
  induction n as [|n IH]; intros i Hp; [reflexivity|].
  cbn [sq_loop]. rewrite sq_body_guarded by (apply Hp; lia).
  rewrite sq_loop_frame, IH by (intros j Hj; apply Hp; lia).
  rewrite zseq_S. cbn [map cat fold_right]. rewrite map_add_add.
  replace (i + 0) with i by lia. reflexivity.
Qed.

Lemma cat_passing (ctx : io_ring_ctx) (sq_head : Z) (l : list Z) :
  cat (map (sq_entry_or_skip K ctx sq_head) l)
  = cat (map (fun i => sq_line_at K ctx sq_head i ++ LF)
             (filter (sq_passes K ctx sq_head) l)).
Proof.
  induction l as [|i l IH]; [reflexivity|].
  cbn [map cat fold_right filter].
  fold (cat (map (sq_entry_or_skip K ctx sq_head) l)).
  rewrite IH. unfold sq_entry_or_skip at 1.
  destruct (sq_passes K ctx sq_head i); reflexivity.
Qed.

(** X4: when no scanned entry that passes the guards is a 128-byte opcode
    on a ring of 64-byte entries (in particular on every ring set up for
    128-byte entries), the scan runs all its iterations, with the cursor it
    started with, and prints in order one line for each scanned entry that
    passes the index and opcode guards, and nothing for the others. *)
Theorem sq_scan_prints_passing_entries (ctx : io_ring_ctx) (r : io_rings)
    (m : seq_file) :
  names_one_line K ->
  let n := Z.to_nat (sq_scan_count ctx r) in
  (forall i, 0 <= i < Z.of_nat n ->
     sq_passes K ctx (sq_head r) i = true -> sq_shift_of K ctx = 0 ->
     is_128 K (sq_opcode K ctx i (sq_head r)) = false) ->
  show_sq_section K ctx r m
  = m ++ sq_header r ++ cat (map (sq_entry_or_skip K ctx (sq_head r)) (zseq n))
  /\ split_lines (sq_entry_text K ctx r)
     = (map (sq_line_at K ctx (sq_head r))
            (filter (sq_passes K ctx (sq_head r)) (zseq n)), "").
Proof.
  intros Hn n Hw.
  assert (Ht : sq_entry_text K ctx r
               = cat (map (sq_entry_or_skip K ctx (sq_head r)) (zseq n))).
  { unfold sq_entry_text. fold n. rewrite sq_loop_guarded.
    - now rewrite map_add_0.
    - intros j Hj. apply Hw. lia. }
  split.
  - now rewrite show_sq_section_eq, Ht.
  - rewrite Ht, cat_passing.
    rewrite <- (map_map (sq_line_at K ctx (sq_head r)) (fun l => l ++ LF)).
    apply split_lines_cat. apply Forall_forall. intros l Hl.
    apply in_map_iff in Hl. destruct Hl as [j [<- _]].
    unfold sq_line_at. now apply count_nl_sqe_line.
Qed.

(** X5: in mixed mode a 128-byte entry that does not move the head cursor
    onto a multiple of the ring size is printed with its eight extra words,
    and the scan goes on with the cursor moved by one: the next iteration
    looks two cursor positions after this entry. *)
Theorem sq_scan_mixed_wide_entry_advances (ctx : io_ring_ctx) (n : nat)
    (i sq_head : Z) (m : seq_file) :
  has_flag (flags ctx) (IORING_SETUP_SQE128 K) = false ->
  has_flag (flags ctx) (IORING_SETUP_SQE_MIXED K) = true ->
  sq_index K ctx (sq_mask_of ctx) i sq_head <= sq_mask_of ctx ->
  sq_opcode K ctx i sq_head < IORING_OP_LAST K ->
  is_128 K (sq_opcode K ctx i sq_head) = true ->
  Z.land (u32 (sq_head + 1)) (sq_mask_of ctx) <> 0 ->
  sq_loop K ctx (sq_mask_of ctx) (sq_shift_of K ctx) (S n) i sq_head m
  = sq_loop K ctx (sq_mask_of ctx) (sq_shift_of K ctx) n (i + 1) (u32 (sq_head + 1))
      (m ++ sqe_line K ctx (sq_slot K ctx i sq_head)
                     (sq_index K ctx (sq_mask_of ctx) i sq_head)
                     (sq_opcode K ctx i sq_head) true ++ LF)
  /\ sq_index K ctx (sq_mask_of ctx) (i + 1) (u32 (sq_head + 1))
     = sq_index K ctx (sq_mask_of ctx) (i + 2) sq_head.
Proof.
  intros H128 Hmixed Hidx Hop Hwide Hwrap. split.
  - cbn [sq_loop]. unfold sq_body.
    unfold sq_opcode, sq_slot in *.
    destruct (sq_mask_of ctx <? _) eqn:E1; [apply Z.ltb_lt in E1; lia|].
    destruct (IORING_OP_LAST K <=? _) eqn:E2; [apply Z.leb_le in E2; lia|].
    rewrite array_index_nospec_in_range by assumption.
    unfold sq_shift_of in *. rewrite H128 in *. cbn [Z.eqb negb].
    rewrite Hwide, Hmixed. cbn [negb].
    destruct (Z.land (u32 (sq_head + 1)) (sq_mask_of ctx) =? 0) eqn:E3;
      [apply Z.eqb_eq in E3; contradiction|].
    now rewrite show_sqe_eq.
  - unfold sq_index.
    assert (E : u32 (i + 1 + u32 (sq_head + 1)) = u32 (i + 2 + sq_head)).
    { unfold u32. rewrite Zplus_mod_idemp_r. f_equal. lia. }
    now rewrite E.
Qed.

(** *** Completion queue *)

Lemma show_cq_section_visits (ctx : io_ring_ctx) (r : io_rings) (fuel : nat)
    (m : seq_file) :
  show_cq_section K ctx r fuel m
  = match cq_visits K ctx r (cq_mask_of ctx) (cq_tail r) fuel (cq_head r) with
    | Some vs =>
        Done (m ++ cq_header r
                ++ cat (map (fun v => cq_entry_text K ctx r (cq_mask_of ctx) (fst v)) vs))
    | None => OutOfFuel
    end.
Proof.
  unfold show_cq_section, seq_printf, cq_header. rewrite cq_loop_visits.
  destruct (cq_visits _ _ _ _ _ _ _); [|reflexivity]. now rewrite !append_assoc.
Qed.

Lemma cq_visits_length (ctx : io_ring_ctx) (r : io_rings) (cq_mask cq_tail : Z)
    (fuel : nat) :
  forall cq_head vs,
    cq_visits K ctx r cq_mask cq_tail fuel cq_head = Some vs ->
    (List.length vs <= fuel)%nat.
Proof.
  induction fuel as [|fuel IH]; intros h vs; cbn [cq_visits].
  - destruct (h <? cq_tail); [discriminate|]. intros [= <-]. simpl. lia.
  - destruct (h <? cq_tail).
    + destruct (cq_visits K ctx r cq_mask cq_tail fuel _) as [vs'|] eqn:E;
        [|discriminate].
      intros [= <-]. specialize (IH _ _ E). simpl. lia.
    + intros [= <-]. simpl. lia.
Qed.


Lemma cq_visits_plain (ctx : io_ring_ctx) (r : io_rings) (cq_mask cq_tail : Z)
    (n : nat) :
  has_flag (flags ctx) (IORING_SETUP_CQE32 K) = false ->
  cq_tail < U32_MOD ->
  forall cq_head,
    0 <= cq_head ->
    cq_head + Z.of_nat n = cq_tail ->
    (forall j, cq_head <= j < cq_tail ->
       has_flag (cqe_flags (cqes r (Z.land j cq_mask))) (IORING_CQE_F_32 K) = false) ->
    cq_visits K ctx r cq_mask cq_tail n cq_head
    = Some (map (fun j => (j, false)) (map (Z.add cq_head) (zseq n))).
Proof.
  intros H32 Ht. induction n as [|n IH]; intros h Hh Hn Hf; cbn [cq_visits].
  - destruct (h <? cq_tail) eqn:E; [apply Z.ltb_lt in E; lia|]. reflexivity.
  - destruct (h <? cq_tail) eqn:E; [|apply Z.ltb_ge in E; lia].
    rewrite cq_body_next.
    assert (Hw : is_cqe32 K ctx (cqes r (Z.land h cq_mask)) = false).
    { unfold is_cqe32. rewrite H32, Hf by lia. reflexivity. }
    rewrite Hw, u32_small by lia.
    rewrite IH by (try lia; intros j Hj; apply Hf; lia).
    rewrite zseq_S. cbn [map]. rewrite map_add_add.
    replace (h + 0) with h by lia. reflexivity.
Qed.

Lemma cq_entry_text_plain (ctx : io_ring_ctx) (r : io_rings) (cq_mask cq_head : Z) :
  is_cqe32 K ctx (cqes r (Z.land cq_head cq_mask)) = false ->
  cq_entry_text K ctx r cq_mask cq_head
  = cqe_text (Z.land cq_head cq_mask) (cqes r (Z.land cq_head cq_mask)) ++ LF.
Proof.
  intros Hw. unfold cq_entry_text, cq_body, seq_printf. rewrite Hw. reflexivity.
Qed.

Lemma cq_entry_text_cqe32 (ctx : io_ring_ctx) (r : io_rings) (cq_mask cq_head : Z) :
  is_cqe32 K ctx (cqes r (Z.land cq_head cq_mask)) = true ->
  cq_entry_text K ctx r cq_mask cq_head
  = cqe_text (Z.land cq_head cq_mask) (cqes r (Z.land cq_head cq_mask))
    ++ (cqe_extra_text (cqes r (Z.land cq_head cq_mask)) ++ LF) ++ LF.
Proof.
  intros Hw. unfold cq_entry_text, cq_body, seq_printf. rewrite Hw.
  cbn [fst String.append]. now rewrite !append_assoc.
Qed.

Lemma slots_consumed_plain (l : list Z) :
  slots_consumed (map (fun j => (j, false)) l) = Z.of_nat (List.length l).
Proof.
  induction l as [|x l IH]; [reflexivity|].
  cbn [map slots_consumed fold_right snd List.length].
  fold (slots_consumed (map (fun j => (j, false)) l)). rewrite IH. lia.
Qed.

Lemma slots_consumed_cqe32 (l : list Z) :
  slots_consumed (map (fun j => (j, true)) l) = 2 * Z.of_nat (List.length l).
Proof.
  induction l as [|x l IH]; [reflexivity|].
  cbn [map slots_consumed fold_right snd List.length].
  fold (slots_consumed (map (fun j => (j, true)) l)). rewrite IH. lia.
Qed.

(** X7: on a ring without the ring-wide 32-byte flag, with cursors in
    order, whose enqueued entries carry no 32-byte flag, the scan prints
    exactly [tail - head] lines, the [i]-th for the slot of cursor
    [head + i], and consumes exactly [tail - head] slots. *)
Theorem cq_section_plain_entries (ctx : io_ring_ctx) (r : io_rings) (m : seq_file) :
  has_flag (flags ctx) (IORING_SETUP_CQE32 K) = false ->
  0 <= cq_head r <= cq_tail r ->
  cq_tail r < U32_MOD ->
  (forall j, cq_head r <= j < cq_tail r ->
     has_flag (cqe_flags (cqes r (Z.land j (cq_mask_of ctx)))) (IORING_CQE_F_32 K)
     = false) ->
  let n := Z.to_nat (cq_tail r - cq_head r) in
  let slot := fun j => Z.land j (cq_mask_of ctx) in
  let cursors := map (Z.add (cq_head r)) (zseq n) in
  show_cq_section K ctx r n m
  = Done (m ++ cq_header r
            ++ cat (map (fun j => cqe_text (slot j) (cqes r (slot j)) ++ LF) cursors))
  /\ split_lines (cat (map (fun j => cqe_text (slot j) (cqes r (slot j)) ++ LF) cursors))
     = (map (fun j => cqe_text (slot j) (cqes r (slot j))) cursors, "")
  /\ cq_visits K ctx r (cq_mask_of ctx) (cq_tail r) n (cq_head r)
     = Some (map (fun j => (j, false)) cursors)
  /\ List.length cursors = n
  /\ slots_consumed (map (fun j => (j, false)) cursors) = cq_tail r - cq_head r.
Proof.
  intros H32 Hh Ht Hf n slot cursors.
  assert (Hv : cq_visits K ctx r (cq_mask_of ctx) (cq_tail r) n (cq_head r)
               = Some (map (fun j => (j, false)) cursors)).
  { apply cq_visits_plain; auto; unfold n; lia. }
  assert (Hlen : List.length cursors = n).
  { unfold cursors. now rewrite length_map, zseq_length. }
  split; [|split; [|split; [|split]]].
  - rewrite show_cq_section_visits, Hv. do 4 f_equal.
    rewrite map_map. apply map_ext_in. intros j Hj. cbn [fst].
    apply in_map_iff in Hj. destruct Hj as [k [<- Hk]].
    unfold zseq in Hk. apply in_map_iff in Hk. destruct Hk as [k' [<- Hk']].
    apply in_seq in Hk'. apply cq_entry_text_plain.
    unfold is_cqe32. rewrite H32, Hf by (unfold n in Hk'; lia). reflexivity.
  - rewrite <- (map_map (fun j => cqe_text (slot j) (cqes r (slot j)))
                        (fun l => l ++ LF)).
    apply split_lines_cat. apply Forall_forall. intros l Hl.
    apply in_map_iff in Hl. destruct Hl as [j [<- _]].
    unfold cqe_text. nl_count.
  - exact Hv.
  - exact Hlen.
  - rewrite slots_consumed_plain, Hlen. unfold n. lia.
Qed.

Lemma cq_visits_cqe32 (ctx : io_ring_ctx) (r : io_rings) (cq_mask cq_tail : Z)
    (fuel : nat) :
  has_flag (flags ctx) (IORING_SETUP_CQE32 K) = true ->
  cq_tail < U32_MOD - 1 ->
  forall cq_head,
    0 <= cq_head ->
    cq_tail - cq_head <= Z.of_nat fuel ->
    cq_visits K ctx r cq_mask cq_tail fuel cq_head
    = Some (map (fun j => (j, true))
                (map (fun k => cq_head + 2 * k)
                     (zseq (Z.to_nat ((cq_tail - cq_head + 1) / 2))))).
Proof.
  intros H32 Ht.
  assert (Hstop : forall h, cq_tail <= h ->
                            Z.to_nat ((cq_tail - h + 1) / 2) = 0%nat).
  { intros h Hle.
    assert ((cq_tail - h + 1) / 2 < 1) by (apply Z.div_lt_upper_bound; lia).
    lia. }
  induction fuel as [|fuel IH]; intros h Hh Hf; cbn [cq_visits].
  - destruct (h <? cq_tail) eqn:E; [apply Z.ltb_lt in E; lia|].
    apply Z.ltb_ge in E. now rewrite Hstop.
  - destruct (h <? cq_tail) eqn:E.
    + apply Z.ltb_lt in E. rewrite cq_body_next.
      assert (Hw : is_cqe32 K ctx (cqes r (Z.land h cq_mask)) = true).
      { unfold is_cqe32. rewrite H32. apply orb_true_r. }
      rewrite Hw.
      assert (Hn : u32 (u32 (h + 1) + 1) = h + 2).
      { rewrite (@u32_small (h + 1)) by (unfold U32_MOD in *; lia).
        rewrite u32_small by (unfold U32_MOD in *; lia). lia. }
      rewrite Hn, IH by lia.
      assert (Hc : Z.to_nat ((cq_tail - h + 1) / 2)
                   = S (Z.to_nat ((cq_tail - (h + 2) + 1) / 2))).
      { replace (cq_tail - h + 1) with (cq_tail - (h + 2) + 1 + 1 * 2) by lia.
        rewrite Z.div_add by lia.
        assert (0 <= (cq_tail - (h + 2) + 1) / 2) by (apply Z.div_pos; lia).
        lia. }
      rewrite Hc, zseq_S. cbn [map]. rewrite !map_map.
      replace (h + 2 * 0) with h by lia.
      do 2 f_equal. apply map_ext. intros k. f_equal. lia.
    + apply Z.ltb_ge in E. now rewrite Hstop.
Qed.

(** X8: on a ring with the ring-wide 32-byte flag whose tail cursor is
    below [2^32 - 1], the scan visits the cursors [head], [head + 2], ...
    below the tail, half of [tail - head] rounded up, prints each entry
    with its extra fields and the empty line after it, and consumes two
    slots per visit: one more than [tail - head] when that is odd. *)
Theorem cq_section_cqe32_ring (ctx : io_ring_ctx) (r : io_rings) (m : seq_file) :
  has_flag (flags ctx) (IORING_SETUP_CQE32 K) = true ->
  0 <= cq_head r ->
  cq_tail r < U32_MOD - 1 ->
  let visits := Z.to_nat ((cq_tail r - cq_head r + 1) / 2) in
  let slot := fun j => Z.land j (cq_mask_of ctx) in
  let cursors := map (fun k => cq_head r + 2 * k) (zseq visits) in
  show_cq_section K ctx r (Z.to_nat (cq_tail r - cq_head r)) m
  = Done (m ++ cq_header r
            ++ cat (map (fun j => cqe_text (slot j) (cqes r (slot j))
                                  ++ (cqe_extra_text (cqes r (slot j)) ++ LF) ++ LF)
                        cursors))
  /\ cq_visits K ctx r (cq_mask_of ctx) (cq_tail r)
               (Z.to_nat (cq_tail r - cq_head r)) (cq_head r)
     = Some (map (fun j => (j, true)) cursors)
  /\ slots_consumed (map (fun j => (j, true)) cursors) = 2 * Z.of_nat visits
  /\ (cq_head r <= cq_tail r ->
      2 * Z.of_nat visits
      = cq_tail r - cq_head r + (cq_tail r - cq_head r) mod 2).
Proof.
  intros H32 Hh Ht visits slot cursors.
  assert (Hv : cq_visits K ctx r (cq_mask_of ctx) (cq_tail r)
                 (Z.to_nat (cq_tail r - cq_head r)) (cq_head r)
               = Some (map (fun j => (j, true)) cursors)).
  { apply cq_visits_cqe32; auto; lia. }
  split; [|split; [|split]].
  - rewrite show_cq_section_visits, Hv. do 4 f_equal.
    rewrite map_map. apply map_ext. intros j. cbn [fst].
    apply cq_entry_text_cqe32. unfold is_cqe32. rewrite H32. apply orb_true_r.
  - exact Hv.
  - rewrite slots_consumed_cqe32. unfold cursors.
    now rewrite length_map, zseq_length.
  - intros Hle. unfold visits.
    assert (0 <= (cq_tail r - cq_head r + 1) / 2) by (apply Z.div_pos; lia).
    rewrite Z2Nat.id by assumption.
    Z.to_euclidean_division_equations. lia.
Qed.

(** X9: when the head cursor is not below the tail cursor as plain
    numbers, the scan prints the count line alone, for any budget; yet
    after a wrap of the tail the count it prints is not zero. *)
Theorem cq_section_empty_when_head_not_below_tail (ctx : io_ring_ctx)
    (r : io_rings) (m : seq_file) :
  cq_tail r <= cq_head r ->
  (forall fuel, show_cq_section K ctx r fuel m = Done (m ++ cq_header r))
  /\ (0 <= cq_tail r -> cq_tail r < cq_head r -> cq_head r < U32_MOD ->
      u32 (cq_tail r - cq_head r) = U32_MOD - (cq_head r - cq_tail r)
      /\ 0 < u32 (cq_tail r - cq_head r)).
Proof.
  intros Hle. split.
  - intros fuel. rewrite show_cq_section_visits.
    assert (Hv : cq_visits K ctx r (cq_mask_of ctx) (cq_tail r) fuel (cq_head r)
                 = Some []).
    { destruct fuel; cbn [cq_visits];
        destruct (cq_head r <? cq_tail r) eqn:E; try reflexivity;
        apply Z.ltb_lt in E; lia. }
    rewrite Hv. cbn [map cat fold_right]. now rewrite append_nil_r.
  - intros H0 Hlt Hmax.
    assert (E : u32 (cq_tail r - cq_head r) = U32_MOD - (cq_head r - cq_tail r)).
    { unfold u32.
      replace (cq_tail r - cq_head r)
        with (U32_MOD - (cq_head r - cq_tail r) + (-1) * U32_MOD) by lia.
      rewrite Z.mod_add by (unfold U32_MOD; lia).
      apply Z.mod_small. lia. }
    split; [exact E | lia].
Qed.

(** X10: on a ring with the ring-wide 32-byte flag, a tail cursor of
    [2^32 - 1] and an even head cursor, the scan is still running after
    any number of iterations: the head cursor wraps past the tail and
    stays even. *)
Theorem cq_section_never_ends (ctx : io_ring_ctx) (r : io_rings) (fuel : nat)
    (m : seq_file) :
  has_flag (flags ctx) (IORING_SETUP_CQE32 K) = true ->
  cq_tail r = U32_MOD - 1 ->
  0 <= cq_head r < U32_MOD ->
  Z.even (cq_head r) = true ->
  show_cq_section K ctx r fuel m = OutOfFuel.
Proof.
  intros H32 Ht Hh He. unfold show_cq_section. rewrite Ht.
  now apply cq_loop_diverges.
Qed.

(** *** Poll list, overflow list, poll thread, busy-poll block *)

Lemma count_nl_poll_line (req : io_kiocb) :
  tctx req <> None -> count_nl (poll_line req) = 1%nat.
Proof.
  intros Ht. unfold poll_line. destruct (tctx req) eqn:E; [|congruence]. nl_count.
Qed.

Lemma show_poll_bucket_eq (reqs : list io_kiocb) :
  Forall (fun req => tctx req <> None) reqs ->
  forall m, show_poll_bucket reqs m = Done (m ++ cat (map poll_line reqs)).
Proof.
  induction 1 as [|req rest Hreq _ IH]; intros m; cbn [show_poll_bucket].
  - cbn. now rewrite append_nil_r.
  - cbn [map cat fold_right]. fold (cat (map poll_line rest)).
    destruct (tctx req) as [t|] eqn:E; [|congruence].
    unfold poll_line at 1. rewrite E.
    cbn [deref]. rewrite IH. unfold seq_printf. now rewrite !append_assoc.
Qed.

Lemma poll_requests_from_S (ctx : io_ring_ctx) (n : nat) (i : Z) :
  poll_requests_from ctx (S n) i
  = (hbs (cancel_table ctx) i ++ poll_requests_from ctx n (i + 1))%list.
Proof.
  unfold poll_requests_from. rewrite zseq_S. cbn [map flat_map].
  rewrite map_add_add. replace (i + 0) with i by lia. reflexivity.
Qed.

Lemma show_poll_buckets_eq (ctx : io_ring_ctx) (n : nat) :
  forall i m,
    Forall (fun req => tctx req <> None) (poll_requests_from ctx n i) ->
    show_poll_buckets ctx n i m
    = Done (m ++ cat (map poll_line (poll_requests_from ctx n i))).
Proof.
  induction n as [|n IH]; intros i m Hp; cbn [show_poll_buckets].
  - cbn. now rewrite append_nil_r.
  - rewrite poll_requests_from_S in *. apply Forall_app in Hp.
    destruct Hp as [Hb Hrest].
    rewrite show_poll_bucket_eq by assumption.
    rewrite IH by assumption. rewrite map_app, cat_app.
    now rewrite append_assoc.
Qed.

Lemma show_poll_list_eq (ctx : io_ring_ctx) (m : seq_file) :
  Forall (fun req => tctx req <> None) (poll_requests ctx) ->
  show_poll_list ctx m = Done (m ++ poll_list_text ctx).
Proof.
  intros Hp. unfold show_poll_list, poll_list_text, seq_puts.
  rewrite show_poll_buckets_eq by assumption.
  fold (poll_requests ctx). now rewrite !append_assoc.
Qed.

(** X11: when the chained requests all have their task context, the poll
    list is its heading followed by one line per request, bucket after
    bucket in the order of the chains. *)
Theorem poll_list_lines (ctx : io_ring_ctx) (m : seq_file) :
  Forall (fun req => tctx req <> None) (poll_requests ctx) ->
  show_poll_list ctx m = Done (m ++ poll_list_text ctx)
  /\ poll_list_text ctx = "PollList:" ++ LF ++ cat (map poll_line (poll_requests ctx))
  /\ count_nl (poll_list_text ctx) = S (List.length (poll_requests ctx)).
Proof.
  intros Hp. split; [now apply show_poll_list_eq|]. split; [reflexivity|].
  unfold poll_list_text. rewrite !count_nl_app.
  rewrite count_nl_cat with (k := 1%nat).
  - rewrite length_map. cbn. lia.
  - apply Forall_forall. intros l Hl. apply in_map_iff in Hl.
    destruct Hl as [req [<- Hin]]. apply count_nl_poll_line.
    rewrite Forall_forall in Hp. now apply Hp.
Qed.

Lemma fold_left_printf {A} (text : A -> string) (l : list A) :
  forall m,
    fold_left (fun m x => seq_printf m (text x)) l m = m ++ cat (map text l).
Proof.
  induction l as [|x l IH]; intros m; cbn [fold_left map cat fold_right].
  - now rewrite append_nil_r.
  - fold (cat (map text l)). rewrite IH. unfold seq_printf.
    now rewrite append_assoc.
Qed.

Lemma show_overflow_eq (ctx : io_ring_ctx) (m : seq_file) (s : sys) :
  show_overflow ctx m s
  = Done (m ++ overflow_list_text ctx,
          {| uring_lock := uring_lock s;
             sync := (sync s ++ [LockCompletion; UnlockCompletion])%list;
             dmesg := dmesg s |}).
Proof.
  unfold show_overflow, overflow_list_text, bind, spin_lock, spin_unlock,
    log_sync, ret, seq_puts.
  cbn [uring_lock sync dmesg]. rewrite fold_left_printf.
  rewrite <- app_assoc. now rewrite !append_assoc.
Qed.

(** X12: the overflow section is its heading followed by one line per
    overflowed completion, in list order, written between one acquisition
    and one release of the completion lock; the ring lock is not touched. *)
Theorem overflow_list_lines (ctx : io_ring_ctx) (m : seq_file) (s : sys) :
  show_overflow ctx m s
  = Done (m ++ overflow_list_text ctx,
          {| uring_lock := uring_lock s;
             sync := (sync s ++ [LockCompletion; UnlockCompletion])%list;
             dmesg := dmesg s |})
  /\ split_lines (overflow_list_text ctx)
     = ("CqOverflowList:"
          :: map (fun o => "  user_data=" ++ fmt_u (cqe_user_data (ocqe_cqe o))
                           ++ ", res=" ++ fmt_d (cqe_res (ocqe_cqe o))
                           ++ ", flags=" ++ fmt_x (cqe_flags (ocqe_cqe o)))
                 (cq_overflow_list ctx), "").
Proof.
  split; [apply show_overflow_eq|].
  unfold overflow_list_text.
  rewrite split_lines_cons by reflexivity. cbn [fst snd].
  assert (E : map overflow_text (cq_overflow_list ctx)
              = map (fun l => l ++ LF)
                  (map (fun o => "  user_data=" ++ fmt_u (cqe_user_data (ocqe_cqe o))
                                 ++ ", res=" ++ fmt_d (cqe_res (ocqe_cqe o))
                                 ++ ", flags=" ++ fmt_x (cqe_flags (ocqe_cqe o)))
                       (cq_overflow_list ctx))).
  { rewrite map_map. apply map_ext. intros o. unfold overflow_text.
    cbn zeta. now rewrite !append_assoc. }
  rewrite E, split_lines_cat; [reflexivity|].
  apply Forall_forall. intros l Hl. apply in_map_iff in Hl.
  destruct Hl as [o [<- _]]. nl_count.
Qed.

Lemma read_sqpoll_eq (ctx : io_ring_ctx) (s : sys) :
  (has_flag (flags ctx) (IORING_SETUP_SQPOLL K) = true -> sq_data ctx <> None) ->
  read_sqpoll K ctx s
  = Done (sqpoll_status_of K ctx,
          {| uring_lock := uring_lock s;
             sync := (sync s ++ sqpoll_sync K ctx)%list;
             dmesg := dmesg s |}).
Proof.
  intros Hsq. unfold read_sqpoll, sqpoll_status_of, sqpoll_sync.
  destruct (has_flag (flags ctx) (IORING_SETUP_SQPOLL K)) eqn:E.
  - specialize (Hsq eq_refl). destruct (sq_data ctx) as [sq|]; [|congruence].
    unfold bind, lift, deref, rcu_read_lock, rcu_read_unlock, log_sync, ret.
    destruct (thread sq); cbn; now rewrite <- app_assoc.
  - unfold ret. now rewrite sys_eta.
Qed.

Lemma show_sqpoll_frame (st : sqpoll_status) (m : seq_file) :
  show_sqpoll st m = m ++ show_sqpoll st "".
Proof. unfold show_sqpoll, seq_printf. now rewrite !append_assoc. Qed.

(** X13: the poll thread block.  A ring that does not poll, or whose poll
    thread is gone, is reported with thread and CPU [-1] and both times
    [0]; a polling ring is read between one read-side lock and unlock; the
    block has four lines in every case. *)
Theorem read_sqpoll_values (ctx : io_ring_ctx) (s : sys) (m : seq_file) :
  (has_flag (flags ctx) (IORING_SETUP_SQPOLL K) = true -> sq_data ctx <> None) ->
  read_sqpoll K ctx s
  = Done (sqpoll_status_of K ctx,
          {| uring_lock := uring_lock s;
             sync := (sync s ++ sqpoll_sync K ctx)%list;
             dmesg := dmesg s |})
  /\ (has_flag (flags ctx) (IORING_SETUP_SQPOLL K) = false ->
      sqpoll_status_of K ctx = sqpoll_none /\ sqpoll_sync K ctx = [])
  /\ (forall sq, sq_data ctx = Some sq -> thread sq = None ->
      sqpoll_status_of K ctx = sqpoll_none)
  /\ (forall sq tsk,
        has_flag (flags ctx) (IORING_SETUP_SQPOLL K) = true ->
        sq_data ctx = Some sq -> thread sq = Some tsk ->
        sqpoll_status_of K ctx
        = {| sq_pid := task_pid sq; sq_cpu_no := sq_cpu sq;
             sq_total_time := io_sq_cpu_usec K tsk; sq_work_time := work_time sq |}
        /\ sqpoll_sync K ctx = [RcuReadLock; RcuReadUnlock])
  /\ show_sqpoll (sqpoll_status_of K ctx) m
     = m ++ show_sqpoll (sqpoll_status_of K ctx) ""
  /\ count_nl (show_sqpoll (sqpoll_status_of K ctx) "") = 4%nat.
Proof.
  intros Hsq. split; [now apply read_sqpoll_eq|].
  unfold sqpoll_status_of, sqpoll_sync.
  split; [intros ->; split; reflexivity|].
  split.
  { intros sq -> ->. destruct (has_flag _ _); reflexivity. }
  split.
  { intros sq tsk -> -> ->. split; reflexivity. }
  split; [apply show_sqpoll_frame|].
  unfold show_sqpoll, seq_printf. nl_count.
Qed.

Lemma napi_frame (ctx : io_ring_ctx) (m : seq_file) :
  napi_show_fdinfo K ctx m = m ++ napi_show_fdinfo K ctx "".
Proof.
  unfold napi_show_fdinfo, common_tracking_show_fdinfo, seq_puts, seq_printf.
  repeat match goal with
         | |- context [if ?c then _ else _] => destruct c
         end;
    rewrite ?append_nil_r, ?append_assoc; reflexivity.
Qed.


(** *** The whole report *)

Lemma show_cursors_frame (ctx : io_ring_ctx) (r : io_rings) (m : seq_file) :
  show_cursors ctx r m = m ++ show_cursors ctx r "".
Proof. unfold show_cursors, seq_printf. now rewrite !append_assoc. Qed.

Lemma show_sq_section_frame (ctx : io_ring_ctx) (r : io_rings) (m : seq_file) :
  show_sq_section K ctx r m = m ++ show_sq_section K ctx r "".
Proof. now rewrite show_sq_section_eq, (show_sq_section_eq K ctx r ""). Qed.

Lemma show_user_files_frame (ctx : io_ring_ctx) (m : seq_file) :
  show_user_files K ctx m = m ++ show_user_files K ctx "".
Proof.
  unfold show_user_files, seq_printf.
  rewrite for_upto_frame by (intros; now rewrite !user_file_body_eq).
  rewrite (for_upto_frame (user_file_body K ctx))
    with (m := "" ++ _) by (intros; now rewrite !user_file_body_eq).
  now rewrite !append_assoc.
Qed.

Lemma show_user_bufs_frame (ctx : io_ring_ctx) (m : seq_file) :
  show_user_bufs ctx m = m ++ show_user_bufs ctx "".
Proof.
  unfold show_user_bufs, seq_printf.
  rewrite for_upto_frame by reflexivity.
  rewrite (for_upto_frame (user_buf_body ctx)) with (m := "" ++ _) by reflexivity.
  now rewrite !append_assoc.
Qed.

(** X2: with the ring lock free, the tail cursor of the completion queue
    below [2^32 - 1], the poll thread data present when the ring polls and
    a task context on every chained request, the reporter returns.  The
    sink is the sink it was given followed by the sections in their
    order, each as it is on the empty sink; the lock has been taken by one
    trylock and released last, the only other synchronisation being the
    read-side pair of a polling ring and the completion lock pair; the
    kernel log is not written. *)
Theorem reporter_returns_sections (me : Z) (ctx : io_ring_ctx) (r : io_rings)
    (m : seq_file) (s : sys) :
  uring_lock s = None ->
  rings ctx = Some r ->
  0 <= cq_head r ->
  cq_tail r < U32_MOD - 1 ->
  (has_flag (flags ctx) (IORING_SETUP_SQPOLL K) = true -> sq_data ctx <> None) ->
  Forall (fun req => tctx req <> None) (poll_requests ctx) ->
  exists cq_text,
    show_cq_section K ctx r (Z.to_nat (cq_tail r - cq_head r)) "" = Done cq_text
    /\ io_uring_show_fdinfo K (Z.to_nat (cq_tail r - cq_head r)) me ctx m s
       = Done (m ++ show_cursors ctx r ""
                 ++ show_sq_section K ctx r ""
                 ++ cq_text
                 ++ show_sqpoll (sqpoll_status_of K ctx) ""
                 ++ show_user_files K ctx ""
                 ++ show_user_bufs ctx ""
                 ++ poll_list_text ctx
                 ++ overflow_list_text ctx
                 ++ napi_show_fdinfo K ctx "",
               {| uring_lock := None;
                  sync := (sync s ++ [TryLockUring true] ++ sqpoll_sync K ctx
                             ++ [LockCompletion; UnlockCompletion; UnlockUring])%list;
                  dmesg := dmesg s |}).
Proof.
  intros Hl Hr Hh Ht Hsq Hp.
  destruct (@cq_visits_in_order K ctx r (cq_mask_of ctx) (cq_tail r)
              (Z.to_nat (cq_tail r - cq_head r)) Ht (cq_head r) Hh ltac:(lia))
    as (vs & Hvs & _).
  exists (cq_header r
            ++ cat (map (fun v => cq_entry_text K ctx r (cq_mask_of ctx) (fst v)) vs)).
  split; [now rewrite show_cq_section_visits, Hvs|].
  rewrite io_uring_show_fdinfo_acquired by assumption.
  unfold __io_uring_show_fdinfo, bind at 1. unfold lift at 1.
  rewrite Hr. cbn [deref]. unfold bind at 1. unfold lift at 1.
  rewrite show_cq_section_visits, Hvs.
  unfold bind at 1. rewrite read_sqpoll_eq by assumption.
  unfold bind at 1. unfold lift at 1.
  rewrite show_poll_list_eq by assumption.
  unfold bind at 1. rewrite show_overflow_eq. unfold ret.
  cbn [uring_lock sync dmesg].
  rewrite napi_frame, show_user_bufs_frame, show_user_files_frame,
    show_sqpoll_frame, show_sq_section_frame, show_cursors_frame.
  f_equal. f_equal.
  - now rewrite !append_assoc.
  - f_equal. now rewrite <- !app_assoc.
Qed.

(** *** The dump *)

Lemma ll_ret : logs_lines (ret tt) [] 0.
Proof.
  intros s. exists "". unfold ret. rewrite append_nil_r, app_nil_r.
  destruct s; split; reflexivity.
Qed.

Lemma ll_pr_warn (text : string) (n : nat) :
  count_nl text = n -> logs_lines (pr_warn text) [] n.
Proof.
  intros Hn s. exists text. unfold pr_warn. now rewrite app_nil_r.
Qed.

Lemma ll_sync (op : sync_op) : logs_lines (log_sync op) [op] 0.
Proof. intros s. exists "". unfold log_sync. now rewrite append_nil_r. Qed.

Lemma ll_bind (c k : M unit) (ops1 ops2 : list sync_op) (n1 n2 : nat) :
  logs_lines c ops1 n1 -> logs_lines k ops2 n2 ->
  logs_lines (c ;;; k) (ops1 ++ ops2)%list (n1 + n2).
Proof.
  intros Hc Hk s. unfold bind.
  destruct (Hc s) as [t1 [-> H1]].
  destruct (Hk {| uring_lock := uring_lock s; sync := (sync s ++ ops1)%list;
                  dmesg := dmesg s ++ t1 |}) as [t2 [-> H2]].
  cbn [uring_lock sync dmesg]. exists (t1 ++ t2).
  rewrite app_assoc, append_assoc, count_nl_app. split; [reflexivity | lia].
Qed.

Lemma ll_bind_quiet (c k : M unit) (n1 n2 n : nat) (ops : list sync_op) :
  logs_lines c [] n1 -> logs_lines k ops n2 -> n = (n1 + n2)%nat ->
  logs_lines (c ;;; k) ops n.
Proof. intros Hc Hk ->. apply (ll_bind Hc Hk). Qed.

Lemma ll_for_each {A} (l : list A) (body : A -> M unit) (lines : A -> nat) :
  (forall x, logs_lines (body x) [] (lines x)) ->
  logs_lines (for_each l body) [] (list_sum (map lines l)).
Proof.
  intros Hb. induction l as [|x l IH]; cbn [for_each map list_sum fold_right].
  - apply ll_ret.
  - eapply ll_bind_quiet; [apply Hb | apply IH | reflexivity].
Qed.

Lemma list_sum_ones {A} (l : list A) :
  list_sum (map (fun _ => 1%nat) l) = List.length l.
Proof.
  unfold list_sum. induction l as [|x l IH]; cbn; [reflexivity | now rewrite IH].
Qed.

Lemma ll_dump_req (prefix : string) (req : io_kiocb) :
  dump_helpers_one_line K -> count_nl prefix = 0%nat ->
  logs_lines (io_uring_dump_req K prefix req) [] 1.
Proof.
  intros (Hn & _ & Hps) Hp. apply ll_pr_warn.
  rewrite !count_nl_app, Hn, Hps, Hp. nl_count.
Qed.

Lemma ll_dump_llist (name : string) (l : list io_kiocb) :
  dump_helpers_one_line K -> count_nl name = 0%nat ->
  logs_lines (io_uring_dump_llist K name l) [] (llist_lines l).
Proof.
  intros HK Hname. unfold io_uring_dump_llist, llist_lines.
  destruct l as [|x l]; [apply ll_ret|].
  eapply ll_bind_quiet.
  - apply ll_pr_warn with (n := 1%nat). rewrite !count_nl_app, Hname. nl_count.
  - apply ll_for_each with (lines := fun _ => 1%nat).
    intros req. now apply ll_dump_req.
  - now rewrite list_sum_ones.
Qed.

Lemma ll_dump_task_works (t : task_struct) :
  dump_helpers_one_line K ->
  logs_lines (io_uring_dump_task_works K t) [] (List.length (task_works t)).
Proof.
  intros (_ & _ & Hps). unfold io_uring_dump_task_works.
  rewrite <- (list_sum_ones (task_works t)).
  apply ll_for_each. intros f. apply ll_pr_warn.
  rewrite !count_nl_app, Hps. nl_count.
Qed.

Lemma ll_dump_poll_req (req : io_kiocb) :
  dump_helpers_one_line K ->
  logs_lines (dump_poll_req K req) [] (poll_req_lines req).
Proof.
  intros HK. unfold dump_poll_req, poll_req_lines.
  apply ll_bind_quiet
    with (n1 := 1%nat)
         (n2 := match tctx req with
                | Some t => List.length (task_works (task t))
                | None => 0%nat
                end).
  - apply ll_dump_req; [assumption | reflexivity].
  - destruct (tctx req) as [t|]; [|apply ll_ret].
    unfold task_work_pending.
    destruct (task_works (task t)) as [|w ws] eqn:E.
    + apply ll_ret.
    + rewrite <- E. now apply ll_dump_task_works.
  - destruct (tctx req); reflexivity.
Qed.

Lemma ll_dump_poll_buckets (ctx : io_ring_ctx) (n : nat) :
  dump_helpers_one_line K ->
  forall i,
    logs_lines (dump_poll_buckets K ctx n i) []
               (list_sum (map poll_req_lines (poll_requests_from ctx n i))).
Proof.
  intros HK. induction n as [|n IH]; intros i; cbn [dump_poll_buckets].
  - apply ll_ret.
  - rewrite poll_requests_from_S, map_app, list_sum_app.
    eapply ll_bind_quiet; [| apply IH | reflexivity].
    apply ll_for_each. intros req. now apply ll_dump_poll_req.
Qed.

Lemma ll_seq (c k : M unit) (ops : list sync_op) (n1 n2 : nat) :
  logs_lines c [] n1 -> logs_lines k ops n2 -> logs_lines (c ;;; k) ops (n1 + n2).
Proof. intros Hc Hk. apply (ll_bind Hc Hk). Qed.

Lemma ll_if (b : bool) (c1 c2 : M unit) (n1 n2 : nat) :
  logs_lines c1 [] n1 -> logs_lines c2 [] n2 ->
  logs_lines (if b then c1 else c2) [] (if b then n1 else n2).
Proof. destruct b; auto. Qed.




End MoreProperties.

(** ** The further statements on the sample rings *)

Lemma sample_dump_helpers_one_line : dump_helpers_one_line sample_env.
Proof.
  split; [exact sample_names_one_line|].
  split; intros p; change (count_nl ("0x" ++ fmt_x p) = 0%nat);
    rewrite count_nl_app, count_nl_fmt_x; reflexivity.
Qed.

Lemma io_uring_show_fdinfo_contended_witness :
  io_uring_show_fdinfo sample_env 3 1 two_nop_ctx "kept" (sample_sys (Some 1))
  = Done ("kept", {| uring_lock := Some 1; sync := [TryLockUring false]; dmesg := "" |}).
Proof.
  apply (@io_uring_show_fdinfo_contended sample_env 3 1 1 two_nop_ctx "kept"
           (sample_sys (Some 1))).
  reflexivity.
Defined.

Lemma reporter_returns_sections_witness :
  exists text,
    io_uring_show_fdinfo sample_env 0 1 gappy_ctx "" (sample_sys None)
    = Done (text, {| uring_lock := None;
                     sync := [TryLockUring true; LockCompletion; UnlockCompletion;
                              UnlockUring];
                     dmesg := "" |}).
Proof.
  destruct (@reporter_returns_sections sample_env 1 gappy_ctx gappy_rings ""
              (sample_sys None)) as (cq & _ & H).
  - reflexivity.
  - reflexivity.
  - vm_compute; discriminate.
  - vm_compute; reflexivity.
  - intros _; discriminate.
  - vm_compute. repeat constructor; discriminate.
  - eexists. exact H.
Defined.

Lemma sq_index_within_mask_without_sq_array_witness :
  0 <= sq_index sample_env polling_ctx (sq_mask_of polling_ctx) 3 0
    <= sq_mask_of polling_ctx
  /\ sq_passes sample_env polling_ctx 0 3
     = (sq_opcode sample_env polling_ctx 3 0 <? IORING_OP_LAST sample_env).
Proof.
  apply (@sq_index_within_mask_without_sq_array sample_env polling_ctx 3 0).
  reflexivity.
Defined.

Lemma sq_scan_prints_passing_entries_witness :
  split_lines (sq_entry_text sample_env gappy_ctx gappy_rings)
  = ([sq_line_at sample_env gappy_ctx 0 0; sq_line_at sample_env gappy_ctx 0 2], "").
Proof.
  destruct (@sq_scan_prints_passing_entries sample_env gappy_ctx gappy_rings ""
              sample_names_one_line) as [_ H].
  - intros i Hi.
    assert (Hi' : i = 0 \/ i = 1 \/ i = 2 \/ i = 3).
    { change (Z.of_nat (Z.to_nat (sq_scan_count gappy_ctx gappy_rings)))
        with 4 in Hi. lia. }
    destruct Hi' as [-> | [-> | [-> | ->]]]; vm_compute; intros;
      first [reflexivity | discriminate].
  - rewrite H. reflexivity.
Defined.

Lemma sq_scan_mixed_wide_entry_advances_witness :
  sq_index sample_env (wide_op_ctx 524288 0) (sq_mask_of (wide_op_ctx 524288 0))
           (0 + 1) (u32 (0 + 1))
  = sq_index sample_env (wide_op_ctx 524288 0) (sq_mask_of (wide_op_ctx 524288 0))
             (0 + 2) 0.
Proof.
  apply (@sq_scan_mixed_wide_entry_advances sample_env (wide_op_ctx 524288 0)
           O 0 0 "").
  - reflexivity.
  - reflexivity.
  - vm_compute; discriminate.
  - vm_compute; reflexivity.
  - reflexivity.
  - vm_compute; discriminate.
Defined.


Lemma cq_section_plain_entries_witness :
  cq_visits sample_env (sample_ctx 0 (sample_rings 0 0 2 5 0) 0)
            (sample_rings 0 0 2 5 0) 15 5 3 2
  = Some [(2, false); (3, false); (4, false)].
Proof.
  destruct (@cq_section_plain_entries sample_env
              (sample_ctx 0 (sample_rings 0 0 2 5 0) 0) (sample_rings 0 0 2 5 0) "")
    as (_ & _ & H & _).
  - reflexivity.
  - vm_compute. split; discriminate.
  - vm_compute; reflexivity.
  - intros j _. reflexivity.
  - exact H.
Defined.

Lemma cq_section_cqe32_ring_witness :
  cq_visits sample_env (sample_ctx 2048 (sample_rings 0 0 0 3 0) 0)
            (sample_rings 0 0 0 3 0) 15 3 3 0
  = Some [(0, true); (2, true)].
Proof.
  destruct (@cq_section_cqe32_ring sample_env
              (sample_ctx 2048 (sample_rings 0 0 0 3 0) 0) (sample_rings 0 0 0 3 0) "")
    as (_ & H & _).
  - reflexivity.
  - vm_compute; discriminate.
  - vm_compute; reflexivity.
  - exact H.
Defined.

Lemma cq_section_empty_when_head_not_below_tail_witness :
  show_cq_section sample_env wrapped_ctx wrapped_rings 0 ""
  = Done ("" ++ cq_header wrapped_rings)
  /\ u32 (cq_tail wrapped_rings - cq_head wrapped_rings) = 1.
Proof.
  destruct (@cq_section_empty_when_head_not_below_tail sample_env wrapped_ctx
              wrapped_rings "") as [H1 H2].
  - vm_compute; discriminate.
  - split; [apply H1|].
    destruct H2 as [H2 _].
    + vm_compute; discriminate.
    + vm_compute; reflexivity.
    + vm_compute; reflexivity.
    + rewrite H2. reflexivity.
Defined.

Lemma cq_section_never_ends_witness :
  show_cq_section sample_env edge_ctx edge_rings 1000 "" = OutOfFuel.
Proof.
  apply (@cq_section_never_ends sample_env edge_ctx edge_rings 1000 "").
  - reflexivity.
  - reflexivity.
  - vm_compute. split; [discriminate | reflexivity].
  - reflexivity.
Defined.

Lemma poll_list_lines_witness :
  show_poll_list gappy_ctx "" = Done ("" ++ poll_list_text gappy_ctx)
  /\ count_nl (poll_list_text gappy_ctx) = 3%nat.
Proof.
  destruct (@poll_list_lines gappy_ctx "") as (H1 & _ & H3).
  - vm_compute. repeat constructor; discriminate.
  - split; [exact H1 | exact H3].
Defined.

Lemma read_sqpoll_values_witness :
  read_sqpoll sample_env polling_ctx (sample_sys (Some 1))
  = Done ({| sq_pid := 55; sq_cpu_no := 3; sq_total_time := 0; sq_work_time := 9 |},
          {| uring_lock := Some 1; sync := [RcuReadLock; RcuReadUnlock]; dmesg := "" |}).
Proof.
  destruct (@read_sqpoll_values sample_env polling_ctx (sample_sys (Some 1)) "")
    as (H & _).
  - intros _; discriminate.
  - exact H.
Defined.





(** ** Properties of the generator *)

Lemma bits_clear_from_iff (k x : Z) :
  0 <= k -> 0 <= x -> (x < 2 ^ k <-> bits_clear_from k x).
Proof.
  intros Hk Hx. split.
  - intros Hlt j Hj. destruct (Z.eq_dec x 0) as [->|Hne].
    + apply Z.bits_0.
    + apply Z.bits_above_log2; [assumption|].
      assert (Z.log2 x < k) by (apply Z.log2_lt_pow2; lia). lia.
  - intros Hc.
    assert (E : x = x mod 2 ^ k).
    { apply Z.bits_inj'. intros n Hn. rewrite Z.testbit_mod_pow2 by assumption.
      destruct (n <? k) eqn:En; cbn [andb]; [reflexivity|].
      apply Z.ltb_ge in En. now apply Hc. }
    rewrite E. apply Z.mod_pos_bound. now apply Z.pow_pos_nonneg.
Qed.

Lemma testbit_u32 (x i : Z) :
  Z.testbit (u32 x) i = ((i <? 32) && Z.testbit x i)%bool.
Proof. unfold u32, U32_MOD. apply Z.testbit_mod_pow2. lia. Qed.

Lemma testbit_high_mask (k j : Z) :
  0 <= k <= 32 ->
  Z.testbit (Z.shiftl (Z.ones (32 - k)) k) j = ((k <=? j) && (j <? 32))%bool.
Proof.
  intros Hk. destruct (Z.ltb_spec j 0) as [Hneg|Hpos].
  - rewrite Z.testbit_neg_r by assumption.
    destruct (k <=? j) eqn:E; [apply Z.leb_le in E; lia | reflexivity].
  - rewrite Z.shiftl_spec by assumption. rewrite Z.testbit_ones by lia.
    destruct (k <=? j) eqn:E1, (0 <=? j - k) eqn:E2, (j - k <? 32 - k) eqn:E3,
      (j <? 32) eqn:E4; cbn; try reflexivity; exfalso;
      repeat match goal with
             | H : (_ <=? _) = true |- _ => apply Z.leb_le in H
             | H : (_ <=? _) = false |- _ => apply Z.leb_gt in H
             | H : (_ <? _) = true |- _ => apply Z.ltb_lt in H
             | H : (_ <? _) = false |- _ => apply Z.ltb_ge in H
             end; lia.
Qed.

(** The bits of one step of a component. *)
Lemma tausworthe_bit (s a b c d i : Z) :
  0 <= i -> 0 <= b ->
  Z.testbit (TAUSWORTHE s a b c d) i
  = xorb ((i <? 32) && (Z.testbit s (i - d) && Z.testbit c (i - d)))
         (xorb ((i + b <? 32) && Z.testbit s (i + b - a)) (Z.testbit s (i + b))).
Proof.
  intros Hi Hb. unfold TAUSWORTHE.
  rewrite Z.lxor_spec, testbit_u32, Z.shiftl_spec, Z.land_spec by assumption.
  rewrite Z.shiftr_spec by assumption.
  rewrite Z.lxor_spec, testbit_u32, Z.shiftl_spec by lia.
  reflexivity.
Qed.

Lemma u32_bits_clear (s : Z) :
  0 <= s < U32_MOD -> forall j, 32 <= j -> Z.testbit s j = false.
Proof.
  intros Hs. apply (bits_clear_from_iff (k := 32) (x := s)); try lia.
  apply Hs.
Qed.

Lemma tausworthe_range (s a b c d : Z) :
  0 <= s < U32_MOD -> 0 <= b -> 0 <= TAUSWORTHE s a b c d < U32_MOD.
Proof.
  intros Hs Hb.
  assert (Hnn : 0 <= TAUSWORTHE s a b c d).
  { unfold TAUSWORTHE. apply Z.lxor_nonneg. split; intros _.
    - apply Z.shiftr_nonneg. apply Z.lxor_nonneg.
      split; intros _; [lia | apply u32_range].
    - apply u32_range. }
  split; [exact Hnn|].
  apply (bits_clear_from_iff (k := 32)); try lia.
  intros j Hj. rewrite tausworthe_bit by lia.
  assert (E1 : (j <? 32) = false) by (apply Z.ltb_ge; lia).
  assert (E2 : (j + b <? 32) = false) by (apply Z.ltb_ge; lia).
  rewrite E1, E2, (@u32_bits_clear s Hs (j + b)) by lia. reflexivity.
Qed.

(** A step cannot clear the high bits of a component: if they are clear
    after the step, they were clear before it. *)
Lemma tausworthe_clear_back (s a b c d k : Z) :
  0 <= s < U32_MOD ->
  0 < a <= b -> 0 < d -> 0 <= k -> k = 32 - b - d ->
  (forall j, Z.testbit c j = ((k <=? j) && (j <? 32))%bool) ->
  bits_clear_from k (TAUSWORTHE s a b c d) ->
  bits_clear_from k s.
Proof.
  intros Hs Ha Hd Hk Hkd Hc Hclear.
  pose proof (@u32_bits_clear s Hs) as Hhigh.
  assert (Hmain : forall n : nat, forall j, k <= j < k + Z.of_nat n ->
                                            Z.testbit s j = false).
  { induction n as [|n IH]; intros j Hj; [lia|].
    destruct (Z_lt_ge_dec j (k + Z.of_nat n)) as [Hlt|Hge]; [apply IH; lia|].
    destruct (Z_lt_ge_dec j 32) as [Hj32|Hj32]; [|apply Hhigh; lia].
    destruct (Z_le_gt_dec j (31 - d)) as [Hlow|Hup].
    - pose proof (Hclear (j + d) ltac:(lia)) as H.
      rewrite tausworthe_bit in H by lia.
      replace (j + d - d) with j in H by lia.
      assert (E1 : (j + d <? 32) = true) by (apply Z.ltb_lt; lia).
      assert (E2 : (j + d + b <? 32) = false) by (apply Z.ltb_ge; lia).
      assert (E3 : Z.testbit c j = true).
      { rewrite Hc. apply andb_true_intro.
        split; [apply Z.leb_le | apply Z.ltb_lt]; lia. }
      rewrite E1, E2, E3, (Hhigh (j + d + b)) in H by lia.
      revert H. destruct (Z.testbit s j); cbn; auto.
    - pose proof (Hclear (j - b) ltac:(lia)) as H.
      rewrite tausworthe_bit in H by lia.
      replace (j - b + b) with j in H by lia.
      assert (E1 : (j <? 32) = true) by (apply Z.ltb_lt; lia).
      assert (E3 : Z.testbit c (j - b - d) = false).
      { rewrite Hc. apply andb_false_intro1. apply Z.leb_gt. lia. }
      rewrite E1, E3, (IH (j - a)) in H by lia.
      rewrite !andb_false_r in H.
      revert H. destruct (Z.testbit s j); cbn; auto. }
  intros j Hj. destruct (Z_lt_ge_dec j 32) as [Hj32|Hj32]; [|apply Hhigh; lia].
  apply (Hmain (Z.to_nat (32 - k))). lia.
Qed.

Lemma tausworthe_keeps_high (s a b c d k : Z) :
  0 < a <= b -> 0 < d -> 0 <= k -> k = 32 - b - d ->
  c = Z.shiftl (Z.ones (32 - k)) k ->
  2 ^ k <= s < U32_MOD ->
  2 ^ k <= TAUSWORTHE s a b c d < U32_MOD.
Proof.
  intros Ha Hd Hk Hkd Hc Hs.
  assert (Hpos : 0 < 2 ^ k) by now apply Z.pow_pos_nonneg.
  assert (Hr : 0 <= TAUSWORTHE s a b c d < U32_MOD)
    by (apply tausworthe_range; lia).
  split; [|apply Hr].
  destruct (Z_lt_ge_dec (TAUSWORTHE s a b c d) (2 ^ k)) as [Hlt|Hge]; [|lia].
  exfalso.
  assert (Hback : bits_clear_from k s).
  { apply (@tausworthe_clear_back s a b c d k); try assumption; try lia.
    - intros j. rewrite Hc. apply testbit_high_mask. lia.
    - apply bits_clear_from_iff; [assumption | apply Hr | assumption]. }
  apply bits_clear_from_iff in Hback; lia.
Qed.

Lemma lxor_range32 (x y : Z) :
  0 <= x < U32_MOD -> 0 <= y < U32_MOD -> 0 <= Z.lxor x y < U32_MOD.
Proof.
  intros Hx Hy.
  assert (Hnn : 0 <= Z.lxor x y) by (apply Z.lxor_nonneg; lia).
  split; [exact Hnn|].
  apply (bits_clear_from_iff (k := 32)); try lia.
  intros j Hj.
  now rewrite Z.lxor_spec, (@u32_bits_clear x Hx j), (@u32_bits_clear y Hy j).
Qed.

(** One call keeps the recurrence condition and returns a 32-bit value. *)
Lemma prandom_u32_state_seeded_range (st : rnd_state) :
  seeded st ->
  seeded (snd (prandom_u32_state st))
  /\ 0 <= fst (prandom_u32_state st) < U32_MOD.
Proof.
  intros (H1 & H2 & H3 & H4).
  assert (K1 : 2 <= TAUSWORTHE (s1 st) 6 13 4294967294 18 < U32_MOD).
  { apply (@tausworthe_keeps_high (s1 st) 6 13 4294967294 18 1);
      try reflexivity; lia. }
  assert (K2 : 8 <= TAUSWORTHE (s2 st) 2 27 4294967288 2 < U32_MOD).
  { apply (@tausworthe_keeps_high (s2 st) 2 27 4294967288 2 3);
      try reflexivity; lia. }
  assert (K3 : 16 <= TAUSWORTHE (s3 st) 13 21 4294967280 7 < U32_MOD).
  { apply (@tausworthe_keeps_high (s3 st) 13 21 4294967280 7 4);
      try reflexivity; lia. }
  assert (K4 : 128 <= TAUSWORTHE (s4 st) 3 12 4294967168 13 < U32_MOD).
  { apply (@tausworthe_keeps_high (s4 st) 3 12 4294967168 13 7);
      try reflexivity; lia. }
  unfold prandom_u32_state, seeded. cbv zeta. cbn [fst snd s1 s2 s3 s4].
  split; [lia|].
  apply lxor_range32; [apply lxor_range32; [apply lxor_range32|]|]; lia.
Qed.

Lemma prandom_u32_state_seeded_step (st : rnd_state) :
  seeded st -> seeded (snd (prandom_u32_state st)).
Proof. intros Hs. now apply prandom_u32_state_seeded_range. Qed.

(** X18: the recurrence condition of the generator, [s1 > 1], [s2 > 7],
    [s3 > 15], [s4 > 127] on 32-bit values, is kept by every call of
    [prandom_u32_state], and the number returned is a 32-bit value. *)
Theorem prandom_u32_state_keeps_seeded (st : rnd_state) :
  seeded st ->
  seeded (snd (prandom_u32_state st))
  /\ 0 <= fst (prandom_u32_state st) < U32_MOD.
Proof. apply prandom_u32_state_seeded_range. Qed.

Lemma zseq_In (n : nat) (x : Z) : 0 <= x < Z.of_nat n -> In x (zseq n).
Proof.
  intros Hx. unfold zseq. apply in_map_iff. exists (Z.to_nat x).
  split; [lia|]. apply in_seq. lia.
Qed.

Lemma forallb_zseq (P : Z -> bool) (n : nat) :
  forallb P (zseq n) = true -> forall x, 0 <= x < Z.of_nat n -> P x = true.
Proof.
  intros H x Hx. rewrite forallb_forall in H. apply H. now apply zseq_In.
Qed.

(** X19: a component that starts below its minimum ([s1 < 2], [s2 < 8],
    [s3 < 16], [s4 < 128]) is zero after one call; a state with all four
    components below their minimum returns 0 and becomes the all-zero
    state, which returns 0 and stays as it is. *)
Theorem prandom_u32_state_unseeded_component (st : rnd_state) :
  (0 <= s1 st < 2 -> s1 (snd (prandom_u32_state st)) = 0)
  /\ (0 <= s2 st < 8 -> s2 (snd (prandom_u32_state st)) = 0)
  /\ (0 <= s3 st < 16 -> s3 (snd (prandom_u32_state st)) = 0)
  /\ (0 <= s4 st < 128 -> s4 (snd (prandom_u32_state st)) = 0)
  /\ (0 <= s1 st < 2 -> 0 <= s2 st < 8 -> 0 <= s3 st < 16 -> 0 <= s4 st < 128 ->
      prandom_u32_state st = (0, {| s1 := 0; s2 := 0; s3 := 0; s4 := 0 |}))
  /\ prandom_u32_state {| s1 := 0; s2 := 0; s3 := 0; s4 := 0 |}
     = (0, {| s1 := 0; s2 := 0; s3 := 0; s4 := 0 |}).
Proof.
  assert (C1 : forall s, 0 <= s < 2 -> TAUSWORTHE s 6 13 4294967294 18 = 0).
  { intros s Hs.
    apply Z.eqb_eq.
    apply (forallb_zseq (fun s => TAUSWORTHE s 6 13 4294967294 18 =? 0) 2);
      [vm_compute; reflexivity | lia]. }
  assert (C2 : forall s, 0 <= s < 8 -> TAUSWORTHE s 2 27 4294967288 2 = 0).
  { intros s Hs.
    apply Z.eqb_eq.
    apply (forallb_zseq (fun s => TAUSWORTHE s 2 27 4294967288 2 =? 0) 8);
      [vm_compute; reflexivity | lia]. }
  assert (C3 : forall s, 0 <= s < 16 -> TAUSWORTHE s 13 21 4294967280 7 = 0).
  { intros s Hs.
    apply Z.eqb_eq.
    apply (forallb_zseq (fun s => TAUSWORTHE s 13 21 4294967280 7 =? 0) 16);
      [vm_compute; reflexivity | lia]. }
  assert (C4 : forall s, 0 <= s < 128 -> TAUSWORTHE s 3 12 4294967168 13 = 0).
  { intros s Hs.
    apply Z.eqb_eq.
    apply (forallb_zseq (fun s => TAUSWORTHE s 3 12 4294967168 13 =? 0) 128);
      [vm_compute; reflexivity | lia]. }
  unfold prandom_u32_state. cbv zeta. cbn [fst snd s1 s2 s3 s4].
  repeat split; intros.
  - now apply C1.
  - now apply C2.
  - now apply C3.
  - now apply C4.
  - rewrite C1, C2, C3, C4 by assumption. reflexivity.
Qed.

(** *** Filling a buffer *)

Lemma prandom_stream_S (n : nat) (st : rnd_state) :
  prandom_stream (S n) st
  = (fst (prandom_u32_state st)
       :: fst (prandom_stream n (snd (prandom_u32_state st))),
     snd (prandom_stream n (snd (prandom_u32_state st)))).
Proof.
  cbn [prandom_stream].
  destruct (prandom_u32_state st) as [x st1]. cbn [fst snd].
  destruct (prandom_stream n st1) as [xs st2]. reflexivity.
Qed.

Lemma prandom_stream_length (n : nat) :
  forall st, List.length (fst (prandom_stream n st)) = n.
Proof.
  induction n as [|n IH]; intros st; [reflexivity|].
  rewrite prandom_stream_S. cbn [fst List.length]. now rewrite IH.
Qed.

Lemma prandom_stream_app (n m : nat) :
  forall st,
    prandom_stream (n + m) st
    = ((fst (prandom_stream n st)
          ++ fst (prandom_stream m (snd (prandom_stream n st))))%list,
       snd (prandom_stream m (snd (prandom_stream n st)))).
Proof.
  induction n as [|n IH]; intros st.
  - cbn [Nat.add prandom_stream fst snd app].
    now destruct (prandom_stream m st).
  - cbn [Nat.add]. rewrite !prandom_stream_S, IH. reflexivity.
Qed.

Lemma prandom_stream_seeded (n : nat) :
  forall st, seeded st -> seeded (snd (prandom_stream n st)).
Proof.
  induction n as [|n IH]; intros st Hs; [exact Hs|].
  rewrite prandom_stream_S. cbn [snd]. apply IH.
  now apply prandom_u32_state_seeded_step.
Qed.

Lemma fill_words_spec (fuel : nat) :
  forall st bytes out,
    0 <= bytes -> bytes / 4 <= Z.of_nat fuel ->
    fill_words fuel st bytes out
    = (snd (prandom_stream (Z.to_nat (bytes / 4)) st), bytes mod 4,
       (out ++ map StoreU32 (fst (prandom_stream (Z.to_nat (bytes / 4)) st)))%list).
Proof.
  assert (Hsmall : forall st bytes out, 0 <= bytes < 4 ->
            (st, bytes, out)
            = (snd (prandom_stream (Z.to_nat (bytes / 4)) st), bytes mod 4,
               (out ++ map StoreU32
                         (fst (prandom_stream (Z.to_nat (bytes / 4)) st)))%list)).
  { intros st bytes out Hb.
    rewrite Z.div_small, Z.mod_small by lia. cbn. now rewrite app_nil_r. }
  induction fuel as [|fuel IH]; intros st bytes out Hb Hf; cbn [fill_words].
  - apply Hsmall. split; [assumption|].
    destruct (Z_lt_ge_dec bytes 4) as [Hlt|Hge]; [assumption|].
    assert (1 <= bytes / 4) by (apply Z.div_le_lower_bound; lia). lia.
  - destruct (4 <=? bytes) eqn:E.
    + apply Z.leb_le in E.
      assert (Hq : bytes / 4 = (bytes - 4) / 4 + 1).
      { replace bytes with (bytes - 4 + 1 * 4) at 1 by lia.
        now rewrite Z.div_add by lia. }
      assert (Hm : bytes mod 4 = (bytes - 4) mod 4).
      { replace bytes with (bytes - 4 + 1 * 4) at 1 by lia.
        now rewrite Z.mod_add by lia. }
      assert (Hq0 : 0 <= (bytes - 4) / 4) by (apply Z.div_pos; lia).
      replace (Z.to_nat (bytes / 4)) with (S (Z.to_nat ((bytes - 4) / 4))) by lia.
      rewrite prandom_stream_S. cbn [fst snd map].
      destruct (prandom_u32_state st) as [x st1]. cbn [fst snd].
      rewrite IH by lia. rewrite Hm, <- app_assoc. reflexivity.
    + apply Z.leb_gt in E. apply Hsmall. lia.
Qed.

Lemma fill_tail_spec (fuel : nat) :
  forall rem bytes out,
    1 <= bytes -> bytes <= Z.of_nat fuel ->
    fill_tail fuel rem bytes out
    = (out ++ map StoreU8 (low_bytes (Z.to_nat bytes) rem))%list.
Proof.
  induction fuel as [|fuel IH]; intros rem bytes out Hb Hf; [lia|].
  cbn [fill_tail].
  replace (Z.to_nat bytes) with (S (Z.to_nat (bytes - 1))) by lia.
  cbn [low_bytes map].
  destruct (0 <? bytes - 1) eqn:E.
  - apply Z.ltb_lt in E. rewrite IH by lia. now rewrite <- app_assoc.
  - apply Z.ltb_ge in E. replace (bytes - 1) with 0 by lia. reflexivity.
Qed.

Lemma buffer_size_app (a b : list store) :
  buffer_size (a ++ b)%list = buffer_size a + buffer_size b.
Proof.
  unfold buffer_size. induction a as [|x a IH]; cbn; [reflexivity|].
  rewrite IH. lia.
Qed.

Lemma buffer_size_words (l : list Z) :
  buffer_size (map StoreU32 l) = 4 * Z.of_nat (List.length l).
Proof.
  unfold buffer_size. induction l as [|x l IH]; [reflexivity|].
  cbn [map fold_right store_size List.length]. rewrite IH. lia.
Qed.

Lemma buffer_size_bytes (l : list Z) :
  buffer_size (map StoreU8 l) = Z.of_nat (List.length l).
Proof.
  unfold buffer_size. induction l as [|x l IH]; [reflexivity|].
  cbn [map fold_right store_size List.length]. rewrite IH. lia.
Qed.

Lemma low_bytes_length (n : nat) : forall w, List.length (low_bytes n w) = n.
Proof. induction n as [|n IH]; intros w; cbn; [reflexivity | now rewrite IH]. Qed.

(** The state and the stores of [prandom_bytes_state], by projections. *)
Lemma prandom_bytes_state_eq (st : rnd_state) (bytes : Z) :
  0 <= bytes ->
  let ws := prandom_stream (Z.to_nat (bytes / 4)) st in
  prandom_bytes_state st bytes
  = if bytes mod 4 =? 0
    then (snd ws, map StoreU32 (fst ws))
    else (snd (prandom_u32_state (snd ws)),
          (map StoreU32 (fst ws)
             ++ map StoreU8 (low_bytes (Z.to_nat (bytes mod 4))
                                       (fst (prandom_u32_state (snd ws)))))%list).
Proof.
  intros Hb ws. unfold prandom_bytes_state.
  assert (Hq : bytes / 4 <= Z.of_nat (Z.to_nat bytes)).
  { assert (bytes / 4 <= bytes) by (apply Z.div_le_upper_bound; lia). lia. }
  rewrite fill_words_spec by assumption. fold ws. cbn [app].
  pose proof (Z.mod_pos_bound bytes 4 ltac:(lia)) as Hm.
  destruct (bytes mod 4 =? 0) eqn:E.
  - apply Z.eqb_eq in E. rewrite E. reflexivity.
  - apply Z.eqb_neq in E.
    destruct (0 <? bytes mod 4) eqn:E2; [|apply Z.ltb_ge in E2; lia].
    destruct (prandom_u32_state (snd ws)) as [w st']. cbn [fst snd].
    now rewrite fill_tail_spec by lia.
Qed.

(** X20: a request of [bytes] bytes stores the first [bytes / 4] numbers
    of the generator as words and, when [bytes] is not a multiple of four,
    the [bytes mod 4] low bytes of the next number, lowest byte first.
    The stores cover exactly [bytes] bytes, the generator is advanced by
    one call per started word, a request of no byte leaves state and
    buffer as they are, and the recurrence condition is kept. *)
Theorem prandom_bytes_state_stores (st : rnd_state) (bytes : Z) :
  0 <= bytes ->
  let ws := prandom_stream (Z.to_nat (bytes / 4)) st in
  let last := prandom_u32_state (snd ws) in
  snd (prandom_bytes_state st bytes)
  = (map StoreU32 (fst ws)
       ++ (if bytes mod 4 =? 0 then []
           else map StoreU8 (low_bytes (Z.to_nat (bytes mod 4)) (fst last))))%list
  /\ fst (prandom_bytes_state st bytes)
     = (if bytes mod 4 =? 0 then snd ws else snd last)
  /\ buffer_size (snd (prandom_bytes_state st bytes)) = bytes
  /\ (bytes = 0 -> prandom_bytes_state st bytes = (st, []))
  /\ (seeded st -> seeded (fst (prandom_bytes_state st bytes))).
Proof.
  intros Hb ws last.
  pose proof (prandom_bytes_state_eq st Hb) as E. cbv zeta in E. fold ws in E.
  fold last in E.
  pose proof (Z.mod_pos_bound bytes 4 ltac:(lia)) as Hm.
  pose proof (Z.div_mod bytes 4 ltac:(lia)) as Hdm.
  assert (Hq0 : 0 <= bytes / 4) by (apply Z.div_pos; lia).
  rewrite E. destruct (bytes mod 4 =? 0) eqn:E0; cbn [fst snd].
  - apply Z.eqb_eq in E0. split; [|split; [|split; [|split]]].
    + now rewrite app_nil_r.
    + reflexivity.
    + rewrite buffer_size_words. unfold ws. rewrite prandom_stream_length. lia.
    + intros H0. unfold ws. rewrite H0. reflexivity.
    + intros Hs. unfold ws. now apply prandom_stream_seeded.
  - apply Z.eqb_neq in E0. split; [|split; [|split; [|split]]].
    + reflexivity.
    + reflexivity.
    + rewrite buffer_size_app, buffer_size_words, buffer_size_bytes.
      unfold ws. rewrite prandom_stream_length, low_bytes_length. lia.
    + intros H0. rewrite H0 in E0. cbn in E0. congruence.
    + intros Hs. unfold last, ws.
      apply prandom_u32_state_seeded_step. now apply prandom_stream_seeded.
Qed.

(** X21: a request can be split after any whole number of words: filling
    [4 * a + n] bytes gives the state and the stores of filling [4 * a]
    bytes and then [n] bytes from the state so reached. *)
Theorem prandom_bytes_state_split (st : rnd_state) (a n : Z) :
  0 <= a -> 0 <= n ->
  let first := prandom_bytes_state st (4 * a) in
  let second := prandom_bytes_state (fst first) n in
  prandom_bytes_state st (4 * a + n) = (fst second, (snd first ++ snd second)%list).
Proof.
  intros Ha Hn first second. unfold second, first.
  rewrite !prandom_bytes_state_eq by lia. cbv zeta.
  assert (Hq : (4 * a + n) / 4 = a + n / 4).
  { rewrite Z.add_comm, Z.mul_comm, Z.div_add by lia. lia. }
  assert (Hm : (4 * a + n) mod 4 = n mod 4).
  { now rewrite Z.add_comm, Z.mul_comm, Z.mod_add by lia. }
  assert (Hqa : 4 * a / 4 = a) by (rewrite Z.mul_comm; apply Z.div_mul; lia).
  assert (Hma : (4 * a) mod 4 = 0) by (rewrite Z.mul_comm; apply Z.mod_mul; lia).
  assert (Hq0 : 0 <= n / 4) by (apply Z.div_pos; lia).
  rewrite Hq, Hm, Hqa, Hma. cbn [Z.eqb fst snd].
  rewrite Z2Nat.inj_add by lia. rewrite prandom_stream_app. cbn [fst snd].
  destruct (n mod 4 =? 0); cbn [fst snd]; rewrite map_app, <- ?app_assoc;
    reflexivity.
Qed.

Section SeedingProperties.

Variable __seed : Z -> Z -> Z.

(** What the callers rely on from [__seed(x, m)]: a 32-bit value that is
    at least [m]. *)
Hypothesis seed_floor :
  forall x m, 0 <= x < U32_MOD -> 0 < m <= 128 -> m <= __seed x m < U32_MOD.

Lemma prandom_warmup_seeded (st : rnd_state) :
  seeded st -> seeded (prandom_warmup st).
Proof.
  intros Hs. unfold prandom_warmup. cbv zeta.
  do 10 apply prandom_u32_state_seeded_step. exact Hs.
Qed.

(** X22: seeding.  Every possible CPU gets a state, computed from the
    four words drawn for it alone, and that state meets the recurrence
    condition [s1 > 1], [s2 > 7], [s3 > 15], [s4 > 127] whatever 32-bit
    words the random source returned. *)
Theorem prandom_seed_full_state_seeded (random : list (Z * Z * Z * Z)) :
  Forall (fun '(a, b, c, d) =>
            0 <= a < U32_MOD /\ 0 <= b < U32_MOD
            /\ 0 <= c < U32_MOD /\ 0 <= d < U32_MOD) random ->
  List.length (prandom_seed_full_state __seed random) = List.length random
  /\ Forall seeded (prandom_seed_full_state __seed random).
Proof.
  intros Hr. unfold prandom_seed_full_state. split; [apply length_map|].
  apply Forall_forall. intros st Hst. apply in_map_iff in Hst.
  destruct Hst as [[[[a b] c] d] [<- Hin]].
  rewrite Forall_forall in Hr. specialize (Hr _ Hin). cbn beta iota in Hr.
  destruct Hr as (Ra & Rb & Rc & Rd).
  unfold seed_cpu_state. apply prandom_warmup_seeded.
  pose proof (@seed_floor a 2 Ra ltac:(lia)).
  pose proof (@seed_floor b 8 Rb ltac:(lia)).
  pose proof (@seed_floor c 16 Rc ltac:(lia)).
  pose proof (@seed_floor d 128 Rd ltac:(lia)).
  unfold seeded. cbn [s1 s2 s3 s4]. lia.
Qed.

End SeedingProperties.

(** ** The generator on sample states *)

Lemma sample_rnd_seeded : seeded sample_rnd.
Proof. vm_compute. repeat split. Qed.

Lemma sample_seed_floor (x m : Z) :
  0 <= x < U32_MOD -> 0 < m <= 128 -> m <= sample_seed x m < U32_MOD.
Proof.
  intros Hx Hm. unfold sample_seed, U32_MOD in *.
  destruct (x <? m) eqn:E; [apply Z.ltb_lt in E | apply Z.ltb_ge in E]; lia.
Qed.

Lemma prandom_u32_state_keeps_seeded_witness :
  seeded (snd (prandom_u32_state sample_rnd))
  /\ 0 <= fst (prandom_u32_state sample_rnd) < U32_MOD.
Proof.
  apply (@prandom_u32_state_keeps_seeded sample_rnd). exact sample_rnd_seeded.
Defined.

Lemma prandom_u32_state_unseeded_component_witness :
  prandom_u32_state {| s1 := 1; s2 := 7; s3 := 15; s4 := 127 |}
  = (0, {| s1 := 0; s2 := 0; s3 := 0; s4 := 0 |}).
Proof.
  destruct (@prandom_u32_state_unseeded_component
              {| s1 := 1; s2 := 7; s3 := 15; s4 := 127 |})
    as (_ & _ & _ & _ & H & _).
  apply H; vm_compute; split; discriminate || reflexivity.
Defined.

Lemma prandom_bytes_state_stores_witness :
  buffer_size (snd (prandom_bytes_state sample_rnd 7)) = 7
  /\ List.length (snd (prandom_bytes_state sample_rnd 7)) = 4%nat.
Proof.
  destruct (@prandom_bytes_state_stores sample_rnd 7) as (Hs & _ & Hb & _).
  - vm_compute; discriminate.
  - split; [exact Hb|]. rewrite Hs. vm_compute. reflexivity.
Defined.

Lemma prandom_bytes_state_split_witness :
  prandom_bytes_state sample_rnd (4 * 1 + 3)
  = (fst (prandom_bytes_state (fst (prandom_bytes_state sample_rnd (4 * 1))) 3),
     (snd (prandom_bytes_state sample_rnd (4 * 1))
        ++ snd (prandom_bytes_state (fst (prandom_bytes_state sample_rnd (4 * 1))) 3))%list).
Proof.
  apply (@prandom_bytes_state_split sample_rnd 1 3); vm_compute; discriminate.
Defined.

Lemma prandom_seed_full_state_seeded_witness :
  List.length (prandom_seed_full_state sample_seed [(0, 0, 0, 0); (5, 6, 7, 4294967295)])
  = 2%nat
  /\ Forall seeded
       (prandom_seed_full_state sample_seed [(0, 0, 0, 0); (5, 6, 7, 4294967295)]).
Proof.
  apply (@prandom_seed_full_state_seeded sample_seed sample_seed_floor
           [(0, 0, 0, 0); (5, 6, 7, 4294967295)]).
  repeat constructor; vm_compute; discriminate || reflexivity.
Defined.

Example prandom_zero_bytes :
  prandom_bytes_state sample_rnd 0 = (sample_rnd, []).
Proof. reflexivity. Qed.

Example prandom_three_bytes_low_first :
  snd (prandom_bytes_state sample_rnd 3)
  = map StoreU8 (low_bytes 3 (fst (prandom_u32_state sample_rnd))).
Proof. vm_compute. reflexivity. Qed.
